(** * Gitlab provider of Cyclone: version negotiation, credentials, helpers

    A shallow embedding of [pkg/scm/provider/gitlab] (the second unit of
    [src/pkg/server/options.go]): [NewGitlab], [getAPIVersion],
    [detectAPIVersion], [getOauthToken], [getTopLanguage] and [transStatus].

    The Go code works on a shared [*api.SCMConfig], on the package variable
    [gitlabServerAPIVersions], writes to the glog log and talks HTTP.  All of
    this is threaded through an explicit state; what the outside world answers
    (HTTP round trips, JSON decoding, URL parsing) is taken from a [World]. *)

From Stdlib Require Import ZArith String Ascii List Bool Lia.
From Stdlib Require Import Floats.SpecFloat.
From stdpp Require Import base option list strings gmap fin_maps.


Local Open Scope Z_scope.

(** ** Strings: the functions of package [strings] the code calls *)

Module strings.

(** [strings.HasPrefix(s, prefix)]. *)
Definition HasPrefix (s prefix : string) : bool := String.prefix prefix s.

(** [strings.Contains(s, substr)]: [substr] starts at some position of [s]. *)
Fixpoint Contains (s substr : string) : bool :=
  String.prefix substr s ||
  match s with
  | EmptyString => false
  | String _ s' => Contains s' substr
  end.

(** [strings.HasSuffix(s, suffix)]:
    [len(s) >= len(suffix) && s[len(s)-len(suffix):] == suffix]. *)
Definition HasSuffix (s suffix : string) : bool :=
  (String.length suffix <=? String.length s)%nat
  && String.eqb (String.substring (String.length s - String.length suffix)
                                  (String.length suffix) s) suffix.

(** [strings.TrimSuffix(s, suffix)]: [s[:len(s)-len(suffix)]] when [s] has the
    suffix, [s] otherwise. *)
Definition TrimSuffix (s suffix : string) : string :=
  if HasSuffix s suffix
  then String.substring 0 (String.length s - String.length suffix) s
  else s.

End strings.

(** ** The function of package [net/url] the code calls *)

Module url.

(** The bytes [url.QueryEscape] leaves as they are: letters, digits and
    [-], [_], [.], [~]. *)
Definition unreserved (c : ascii) : bool :=
  let n := nat_of_ascii c in
  ((97 <=? n) && (n <=? 122))%nat || ((65 <=? n) && (n <=? 90))%nat
  || ((48 <=? n) && (n <=? 57))%nat
  || (c =? "-")%char || (c =? "_")%char || (c =? ".")%char || (c =? "~")%char.

(** [upperhex[n]], for [upperhex = "0123456789ABCDEF"]. *)
Definition upperhex (n : nat) : ascii :=
  match String.get n "0123456789ABCDEF" with
  | Some c => c
  | None => "0"%char
  end.

(** [url.QueryEscape(s)]: a space becomes [+], every other byte that is not
    unreserved becomes [%XX]. *)
Fixpoint QueryEscape (s : string) : string :=
  match s with
  | EmptyString => EmptyString
  | String c s' =>
      if unreserved c then String c (QueryEscape s')
      else if (c =? " ")%char then String "+"%char (QueryEscape s')
      else String "%"%char
             (String (upperhex (nat_of_ascii c / 16))
                (String (upperhex (nat_of_ascii c mod 16)) (QueryEscape s')))
  end.

End url.

(** [len(s)] of a Go string. *)
Definition len (s : string) : Z := Z.of_nat (String.length s).

(** ** Data model *)

(** The fields of [api.SCMConfig] that this package reads or writes. *)
Record SCMConfig : Type := mkSCMConfig {
  Server : string;
  Username : string;
  Password : string;
  Token : string
}.

Definition withServer (c : SCMConfig) (v : string) : SCMConfig :=
  mkSCMConfig v (Username c) (Password c) (Token c).

Definition withToken (c : SCMConfig) (v : string) : SCMConfig :=
  mkSCMConfig (Server c) (Username c) (Password c) v.

(** Where a library error comes from. *)
Inductive origin : Type :=
| http_NewRequest_error
| http_Do_error
| ioutil_ReadAll_error
| json_Marshal_error
| json_Unmarshal_error
| SetBaseURL_error.

(** Go [error] values: those the package builds itself with [fmt.Errorf], and
    those handed back by a library. *)
Inductive error : Type :=
| Errorf (msg : string)
| LibError (o : origin) (msg : string).

(** [err.Error()]. *)
Definition Error_ (e : error) : string :=
  match e with
  | Errorf m => m
  | LibError _ m => m
  end.

(** [oauth2.Token] (without its expiry) and [versionResponse]. *)
Record oauth2_Token : Type := mkToken {
  AccessToken : string;
  TokenType : string;
  RefreshToken : string
}.

Record versionResponse : Type := mkVersionResponse {
  Version : string;
  Reversion : string
}.

(** The anonymous struct marshalled as the body of the token request. *)
Record bodyData : Type := mkBodyData {
  GrantType : string;
  BodyUsername : string;
  BodyPassword : string
}.

(** HTTP requests and responses.  [Body] is what [ioutil.ReadAll(resp.Body)]
    gives: the bytes, or the message of a read error. *)
Record Request : Type := mkRequest {
  Method : string;
  URL : string;
  Header : gmap string string;
  ReqBody : option string
}.

Record Response : Type := mkResponse {
  StatusCode : Z;
  Body : string + string
}.

(** [req.Header.Set(key, value)] (key canonicalisation of net/http left out). *)
Definition Header_Set (req : Request) (key value : string) : Request :=
  mkRequest (Method req) (URL req) (<[key := value]> (Header req)) (ReqBody req).

(** The two HTTP clients in use: [http.DefaultClient] and the client of
    [detectAPIVersion] whose [CheckRedirect] returns [http.ErrUseLastResponse]. *)
Inductive httpClient : Type := DefaultClient | NoRedirectClient.

(** glog levels and the arguments of a formatted log line. *)
Inductive level : Type := Info | Warning | Error.

Inductive logarg : Type :=
| AStr (s : string)
| AInt (n : Z)
| AErr (e : error).

(** What a call does that is visible outside of its result: log lines, HTTP
    round trips, and accesses to the package-level map.  [EvLock] and
    [EvUnlock] stand for [sync.Mutex] operations on a lock guarding the map. *)
Inductive event : Type :=
| EvLog (l : level) (format : string) (args : list logarg)
| EvDo (c : httpClient) (req : Request)
| EvMapRead (key : string)
| EvMapWrite (key value : string)
| EvLock
| EvUnlock.

(** Construction results of the two client libraries. *)
Inductive authStyle : Type := PrivateTokenClient | OAuthClient.

Record Client : Type := mkClient {
  clientAuth : authStyle;
  clientToken : string;
  clientBaseURL : string
}.

Inductive SCMProvider : Type :=
| GitlabV3 (scmCfg : SCMConfig) (client : Client)
| GitlabV4 (scmCfg : SCMConfig) (client : Client).

(** ** The outside world *)

(** Answers of everything that is not code of the package.  Library errors are
    given by their message ([inl]).  [ParseServerURL] is the helper of package
    [provider] that [getAPIVersion] uses for the cache key. *)
Record World : Type := mkWorld {
  ParseServerURL : string → string;
  url_Parse_error : string → option string;
  json_Marshal : bodyData → string + string;
  json_Unmarshal_Token : string → string + oauth2_Token;
  json_Unmarshal_versionResponse : string → string + versionResponse;
  RoundTrip : httpClient → Request → string + Response;
  SetBaseURL_fails : string → option string
}.

(** ** State and the state-and-error monad *)

Record state : Type := mkState {
  scmCfg : SCMConfig;
  gitlabServerAPIVersions : gmap string string;
  events : list event
}.

Definition M (A : Type) : Type := state → (error + A) * state.

#[global] Instance M_ret : MRet M := λ A a s, (inr a, s).

#[global] Instance M_bind : MBind M := λ A B f m s,
  match m s with
  | (inr a, s') => f a s'
  | (inl e, s') => (inl e, s')
  end.

(** [return ..., err]. *)
Definition fail {A} (e : error) : M A := λ s, (inl e, s).

(** Run [m] and hand its outcome back as a value ([v, err := m()]). *)
Definition try {A} (m : M A) : M (error + A) := λ s,
  let '(r, s') := m s in (inr r, s').

(** [if err != nil { handler; return ..., err' }]. *)
Definition orReturn {A} (r : error + A) (handler : error → M error) : M A :=
  match r with
  | inr a => mret a
  | inl e => e' ← handler e; fail e'
  end.

Definition fromLib {A} (o : origin) (r : string + A) : error + A :=
  match r with
  | inl m => inl (LibError o m)
  | inr a => inr a
  end.

Definition emit (e : event) : M unit := λ s,
  (inr tt, mkState (scmCfg s) (gitlabServerAPIVersions s) (events s ++ [e])).

Definition log (l : level) (format : string) (args : list logarg) : M unit :=
  emit (EvLog l format args).

Definition getCfg : M SCMConfig := λ s, (inr (scmCfg s), s).

Definition setCfg (c : SCMConfig) : M unit := λ s,
  (inr tt, mkState c (gitlabServerAPIVersions s) (events s)).

(** [v, ok := gitlabServerAPIVersions[key]]. *)
Definition mapRead (key : string) : M (option string) := λ s,
  (inr (gitlabServerAPIVersions s !! key),
   mkState (scmCfg s) (gitlabServerAPIVersions s) (events s ++ [EvMapRead key])).

(** [gitlabServerAPIVersions[key] = value]. *)
Definition mapWrite (key value : string) : M unit := λ s,
  (inr tt,
   mkState (scmCfg s) (<[key := value]> (gitlabServerAPIVersions s))
           (events s ++ [EvMapWrite key value])).

(** ** Constants *)

Definition gitLabServer : string := "https://gitlab.com".
Definition v3APIVersion : string := "v3".
Definition v4APIVersion : string := "v4".

Definition StatusOK : Z := 200.
Definition StatusFound : Z := 302.
Definition StatusNotFound : Z := 404.

Section Gitlab.

Context (w : World).

(** [http.NewRequest(method, url, body)]: fails when the URL does not parse. *)
Definition http_NewRequest (method url : string) (body : option string)
  : error + Request :=
  match url_Parse_error w url with
  | Some m => inl (LibError http_NewRequest_error m)
  | None => inr (mkRequest method url ∅ body)
  end.

(** [client.Do(req)]. *)
Definition Do (c : httpClient) (req : Request) : M (error + Response) :=
  emit (EvDo c req);;
  mret (fromLib http_Do_error (RoundTrip w c req)).

(** [ioutil.ReadAll(resp.Body)]. *)
Definition ReadAll (resp : Response) : error + string :=
  fromLib ioutil_ReadAll_error (Body resp).

(** [getOauthToken], lines 328-386. *)
Definition getOauthToken : M string :=
  scm ← getCfg;
  if (len (Username scm) =? 0) || (len (Password scm) =? 0) then
    fail (Errorf "GitHub username or password is missing")
  else
    bodyBytes ← orReturn
      (fromLib json_Marshal_error
         (json_Marshal w (mkBodyData "password" (Username scm) (Password scm))))
      (λ err, mret (Errorf ("fail to new request body for token as " +:+ Error_ err)));
    (if strings.Contains (Server scm) "gitlab.com"
        && strings.HasPrefix (Server scm) "http://"
     then
       log Info "Convert SCM server from %s to %s to use HTTPS protocol for public Gitlab"
           [AStr (Server scm); AStr gitLabServer];;
       setCfg (withServer scm gitLabServer)
     else mret tt);;
    scm ← getCfg;
    let tokenURL := Server scm +:+ "/oauth/token" in
    req ← orReturn (http_NewRequest "POST" tokenURL (Some bodyBytes))
      (λ err, log Error "Fail to new the request for token as %s" [AStr (Error_ err)];;
              mret err);
    let req := Header_Set req "Content-Type" "application/json" in
    r ← Do DefaultClient req;
    resp ← orReturn r
      (λ err, log Error "Fail to request for token as %s" [AStr (Error_ err)];;
              mret err);
    body ← orReturn (ReadAll resp)
      (λ err, log Error "Fail to request for token as %s" [AStr (Error_ err)];;
              mret err);
    if StatusCode resp ÷ 100 =? 2 then
      token ← orReturn (fromLib json_Unmarshal_error (json_Unmarshal_Token w body)) mret;
      mret (AccessToken token)
    else
      fail (Errorf ("Fail to request for token as " +:+ body)).

(** [detectAPIVersion], lines 263-326. *)
Definition detectAPIVersion : M string :=
  scmCfg ← getCfg;
  (if decide (Token scmCfg = "") then
     r ← try getOauthToken;
     token ← orReturn r (λ err, log Error "%v" [AErr err];; mret err);
     scmCfg ← getCfg;
     setCfg (withToken scmCfg token)
   else mret tt);;
  scmCfg ← getCfg;
  let url := Server scmCfg +:+ "/api/v4/version" in
  req ← orReturn (http_NewRequest "GET" url None)
    (λ err, log Error "%v" [AErr err];; mret err);
  let req := Header_Set req "Content-Type" "application/json" in
  let req :=
    if decide (Username scmCfg = "")
    then Header_Set req "PRIVATE-TOKEN" (Token scmCfg)
    else Header_Set req "Authorization" ("Bearer " +:+ Token scmCfg) in
  r ← Do NoRedirectClient req;
  resp ← orReturn r (λ err, log Error "%v" [AErr err];; mret err);
  if StatusCode resp =? StatusOK then
    body ← orReturn (ReadAll resp) mret;
    gv ← orReturn (fromLib json_Unmarshal_error (json_Unmarshal_versionResponse w body))
      (λ err, log Error "%v" [AErr err];; mret err);
    log Info "Gitlab version is %s, will use %s API"
        [AStr (Version gv); AStr v4APIVersion];;
    mret v4APIVersion
  else if (StatusCode resp =? StatusNotFound) || (StatusCode resp =? StatusFound) then
    mret v3APIVersion
  else
    log Warning "Status code of Gitlab API version request is %d, use v3 in default"
        [AInt (StatusCode resp)];;
    mret v3APIVersion.

(** [getAPIVersion], lines 239-255. *)
Definition getAPIVersion : M string :=
  scmCfg ← getCfg;
  let server := ParseServerURL w (Server scmCfg) in
  cached ← mapRead server;
  match cached with
  | Some v => mret v
  | None =>
      version ← detectAPIVersion;
      mapWrite server version;;
      mret version
  end.

(** [newGitlabV3Client] and [newGitlabV4Client], lines 204-237: the two
    differ in the library they construct the client with and in the version
    segment of the base URL. *)
Definition newGitlabClient (apiVersion server username token : string) : M Client :=
  let auth := if len username =? 0 then PrivateTokenClient else OAuthClient in
  let base := server +:+ "/api/" +:+ apiVersion in
  match SetBaseURL_fails w base with
  | Some m =>
      log Error "%s" [AStr m];;
      fail (LibError SetBaseURL_error m)
  | None => mret (mkClient auth token base)
  end.

Definition newGitlabV3Client : string → string → string → M Client :=
  newGitlabClient v3APIVersion.

Definition newGitlabV4Client : string → string → string → M Client :=
  newGitlabClient v4APIVersion.

(** The error of the [default] branch of [NewGitlab]. *)
Definition unsupported (version : string) : error :=
  Errorf ("Gitlab API version " +:+ version +:+ " is not supported, only support "
          +:+ v3APIVersion +:+ " and " +:+ v4APIVersion).

(** [NewGitlab], lines 172-202. *)
Definition NewGitlab : M SCMProvider :=
  r ← try getAPIVersion;
  scmCfg ← getCfg;
  version ← orReturn r
    (λ err, log Error "Fail to get API version for server %s as %v"
                [AStr (Server scmCfg); AErr err];;
            mret err);
  log Info "New Gitlab %s client" [AStr version];;
  if decide (version = v3APIVersion) then
    c ← try (newGitlabV3Client (Server scmCfg) (Username scmCfg) (Token scmCfg));
    client ← orReturn c
      (λ err, log Error "fail to new Gitlab v3 client as %v" [AErr err];; mret err);
    mret (GitlabV3 scmCfg client)
  else if decide (version = v4APIVersion) then
    c ← try (newGitlabV4Client (Server scmCfg) (Username scmCfg) (Token scmCfg));
    v4Client ← orReturn c
      (λ err, log Error "fail to new Gitlab v4 client as %v" [AErr err];; mret err);
    mret (GitlabV4 scmCfg v4Client)
  else
    let err := unsupported version in
    log Error "%v" [AErr err];;
    fail err.

End Gitlab.

(** ** Operation helpers *)

(** [float32] values with the comparisons of IEEE 754, zero value [+0]. *)
Definition float32 : Type := spec_float.
Definition float32_zero : float32 := S754_zero false.

(** [a > b] on [float32]. *)
Definition gt32 (a b : float32) : bool := SFltb b a.

(** [getTopLanguage], lines 429-439.  [range] over a Go map visits every entry
    once, in an order the language leaves open: the argument is the sequence of
    entries in the order of the visit. *)
Definition getTopLanguage_step (acc : string * float32) (entry : string * float32)
  : string * float32 :=
  let '(language, max) := acc in
  let '(l, value) := entry in
  if gt32 value max then (l, value) else (language, max).

Definition getTopLanguage (languages : list (string * float32)) : string :=
  fst (fold_left getTopLanguage_step languages ("", float32_zero)).

(** A visit order of the map [m]. *)
Definition range_of (m : gmap string float32) (order : list (string * float32)) : Prop :=
  order ≡ₚ map_to_list m.

Section TransStatus.

(** [api.Status] and the four constants of package [api] that [transStatus]
    switches on. *)
Context {Status : Type} `{EqDecision Status}.
Context (Running Success Failed Aborted : Status).

(** [transStatus], lines 488-512: the pair it returns, and the lines it
    logs (level, format, argument). *)
Definition transStatus (recordStatus : Status)
  : (string * string) * list (level * string * Status) :=
  if decide (recordStatus = Running) then
    (("running", "The Cyclone CI build is in progress."), [])
  else if decide (recordStatus = Success) then
    (("success", "The Cyclone CI build passed."), [])
  else if decide (recordStatus = Failed) then
    (("failed", "The Cyclone CI build failed."), [])
  else if decide (recordStatus = Aborted) then
    (("canceled", "The Cyclone CI build failed."), [])
  else
    (("pending", ""), [(Error, "not supported state:%s", recordStatus)]).

End TransStatus.

(** [RepoFile], lines 482-486. *)
Record RepoFile : Type := mkRepoFile {
  Name : string;
  Type_ : string;
  Path : string
}.

(** [json.Unmarshal] into the two variables of the helpers below: the value
    the variable holds afterwards, and the message of the error if there is
    one (a failed decoding may have stored a part of the document). *)
Record Decoders : Type := mkDecoders {
  json_Unmarshal_languages : string → gmap string float32 * option string;
  json_Unmarshal_RepoFiles : string → list RepoFile * option string
}.

Section Helpers.

Context (w : World) (d : Decoders).

(** [getLanguages] and [getContents], lines 388-427 and 441-480, are one
    function up to the decoded variable ([initial] is its value before the
    decoding), the last segment of the path and a word of the messages.  Go
    returns the variable and the error together: the result is the pair. *)
Definition getProjectResource {A} (what segment : string) (initial : A)
    (decode : string → A * option string) (version project : string)
  : M (A * option error) :=
  scm ← getCfg;
  let path := strings.TrimSuffix (Server scm) "/" +:+ "/api/" +:+ version
              +:+ "/projects/" +:+ url.QueryEscape project +:+ segment in
  match http_NewRequest w "GET" path None with
  | inl err => mret (initial, Some err)
  | inr req =>
      let req :=
        if len (Username scm) =? 0
        then Header_Set req "PRIVATE-TOKEN" (Token scm)
        else Header_Set req "Authorization" ("Bearer " +:+ Token scm) in
      let req := Header_Set req "Content-Type" "application/json" in
      r ← Do w DefaultClient req;
      match r with
      | inl err =>
          log Error ("Fail to get project " +:+ what +:+ " as %s") [AStr (Error_ err)];;
          mret (initial, Some err)
      | inr resp =>
          match ReadAll resp with
          | inl err =>
              log Error ("Fail to get project " +:+ what +:+ " as %s")
                  [AStr (Error_ err)];;
              mret (initial, Some err)
          | inr body =>
              if StatusCode resp ÷ 100 =? 2 then
                match decode body with
                | (value, Some m) => mret (value, Some (LibError json_Unmarshal_error m))
                | (value, None) => mret (value, None)
                end
              else
                mret (initial,
                      Some (Errorf ("Fail to get project " +:+ what +:+ " as " +:+ body)))
          end
      end
  end.

(** [getLanguages], lines 388-427. *)
Definition getLanguages : string → string → M (gmap string float32 * option error) :=
  getProjectResource "languages" "/languages" ∅ (json_Unmarshal_languages d).

(** [getContents], lines 441-480. *)
Definition getContents : string → string → M (list RepoFile * option error) :=
  getProjectResource "contents" "/repository/tree" [] (json_Unmarshal_RepoFiles d).

End Helpers.

(** ** The options of the API server (package [server]) *)

Module server.

(** [time.Second] in nanoseconds, the unit of [time.Duration]. *)
Definition Second : Z := 1000000000.

(** [APIServerOptions], lines 41-53. *)
Record APIServerOptions : Type := mkAPIServerOptions {
  MongoDBHost : string;
  SaltKey : string;
  MongoGracePeriod : Z;
  CyclonePort : Z;
  CycloneAddrTemplate : string;
  ShowAPIDoc : bool;
  CloudAutoDiscovery : bool;
  RecordRotationThreshold : Z;
  NotificationURL : string;
  RecordWebURLTemplate : string
}.

(** [NewAPIServerOptions], lines 55-62: the fields it does not name have
    their zero value. *)
Definition NewAPIServerOptions : APIServerOptions :=
  mkAPIServerOptions "" "" (30 * Second) 7099 "http://localhost:%v"
                     false false 0 "" "".

(** The field of the options a flag writes to ([Destination: &opts.X]). *)
Inductive destination : Type :=
| toMongoDBHost
| toSaltKey
| toShowAPIDoc
| toCloudAutoDiscovery
| toRecordRotationThreshold
| toNotificationURL
| toRecordWebURLTemplate
| toMongoGracePeriod
| toCyclonePort
| toCycloneAddrTemplate.

(** The three kinds of [cli.Flag] in use, with the fields the code sets. *)
Inductive Flag : Type :=
| StringFlag (name value usage envVar : string) (dest : destination)
| BoolTFlag (name usage envVar : string) (dest : destination)
| IntFlag (name usage envVar : string) (dest : destination).

Definition flagName (f : Flag) : string :=
  match f with
  | StringFlag n _ _ _ _ | BoolTFlag n _ _ _ | IntFlag n _ _ _ => n
  end.

Definition flagDestination (f : Flag) : destination :=
  match f with
  | StringFlag _ _ _ _ t | BoolTFlag _ _ _ t | IntFlag _ _ _ t => t
  end.

(** The environment variables of lines 25-39. *)
Definition MongoDBHost_env : string := "MONGODB_HOST".
Definition SaltKey_env : string := "SALT_KEY".
Definition CloudAutoDiscovery_env : string := "CLOUD_AUTO_DISCOVERY".
Definition RecordRotationThreshold_env : string := "RECORD_ROTATION_THRESHOLD".
Definition NotificationURL_env : string := "NOTIFICATION_URL".
Definition RecordWebURLTemplate_env : string := "RECORD_WEB_URL_TEMPLATE".

(** [AddFlags], lines 64-114, on the flags of the app. *)
Definition AddFlags (appFlags : list Flag) : list Flag :=
  let flags := [
    StringFlag "mongodb-host" "localhost" "mongdb host" MongoDBHost_env toMongoDBHost;
    StringFlag "salt-key" "caicloud-cyclone" "salt key to encrypt passwords"
               SaltKey_env toSaltKey;
    BoolTFlag "show-api-doc"
              "show the api doc at http://<cyclone instance>/apidocs/#/api/v0.1"
              "" toShowAPIDoc;
    BoolTFlag "cloud-auto-discovery"
              "auto discovery cloud by k8s serviceAccount, default to true"
              CloudAutoDiscovery_env toCloudAutoDiscovery;
    IntFlag "record-rotation-threshold" "pipeline record rotation threshold"
            RecordRotationThreshold_env toRecordRotationThreshold;
    StringFlag "notification-url" "" "Notification URL"
               NotificationURL_env toNotificationURL;
    StringFlag "record-web-url-template" "" "Record web URL template"
               RecordWebURLTemplate_env toRecordWebURLTemplate
  ] in
  appFlags ++ flags.

End server.

(** * Vocabulary of the properties *)

(** ** Frames *)

(** What a computation leaves alone: [keeps P m] says that [m] never touches
    the version map and only emits events satisfying [P]. *)
Definition keeps {A} (P : event → Prop) (m : M A) : Prop :=
  ∀ s, gitlabServerAPIVersions (m s).2 = gitlabServerAPIVersions s
       ∧ ∃ evs, events (m s).2 = events s ++ evs ∧ Forall P evs.

(** Log lines and HTTP round trips: the events that are neither a map access
    nor a lock operation. *)
Definition is_io (e : event) : Prop :=
  match e with
  | EvLog _ _ _ | EvDo _ _ => True
  | _ => False
  end.

(** Log lines and round trips through [http.DefaultClient]. *)
Definition is_token_io (e : event) : Prop :=
  match e with
  | EvLog _ _ _ | EvDo DefaultClient _ => True
  | _ => False
  end.

(** Log lines. *)
Definition is_log (e : event) : Prop :=
  match e with
  | EvLog _ _ _ => True
  | _ => False
  end.

(** ** States, traces and requests *)

(** The error of [getOauthToken] for a config without username or password. *)
Definition missingCredentials : error :=
  Errorf "GitHub username or password is missing".

(** The state [s] with one more event. *)
Definition after (s : state) (e : event) : state :=
  mkState (scmCfg s) (gitlabServerAPIVersions s) (events s ++ [e]).

(** The events a run of [m] from [s] adds to the trace. *)
Definition new_events {A} (m : M A) (s : state) : list event :=
  drop (length (events s)) (events (m s).2).

(** The run of [m] from [s] sends [req] through client [c]. *)
Definition sent {A} (m : M A) (s : state) (c : httpClient) (req : Request) : Prop :=
  EvDo c req ∈ new_events m s.

(** The HTTP round trips recorded in a trace. *)
Definition requests (evs : list event) : list (httpClient * Request) :=
  omap (λ e, match e with EvDo c r => Some (c, r) | _ => None end) evs.

(** The probe of [detectAPIVersion] for a config: the request as it stands
    when it is sent, after the two or three [Header.Set]. *)
Definition versionRequest (c : SCMConfig) : Request :=
  mkRequest "GET" (Server c +:+ "/api/v4/version")
    (if decide (Username c = "")
     then <["PRIVATE-TOKEN" := Token c]> {["Content-Type" := "application/json"]}
     else <["Authorization" := "Bearer " +:+ Token c]> {["Content-Type" := "application/json"]})
    None.

(** The token request of [getOauthToken] for a config and an encoded body. *)
Definition oauthTokenRequest (c : SCMConfig) (bodyBytes : string) : Request :=
  mkRequest "POST" (Server c +:+ "/oauth/token")
    {["Content-Type" := "application/json"]} (Some bodyBytes).

(** The request of [getLanguages] and [getContents] for a config; [segment]
    is the end of the path. *)
Definition projectRequest (c : SCMConfig) (version project segment : string) : Request :=
  mkRequest "GET"
    (strings.TrimSuffix (Server c) "/" +:+ "/api/" +:+ version +:+ "/projects/"
     +:+ url.QueryEscape project +:+ segment)
    (<["Content-Type" := "application/json"]>
       (if decide (Username c = "")
        then {["PRIVATE-TOKEN" := Token c]}
        else {["Authorization" := "Bearer " +:+ Token c]}))
    None.

(** ** Versions and reachable maps *)



(** ** Map accesses and locks *)

(** Reads and writes of [gitlabServerAPIVersions]. *)
Definition is_map_access (e : event) : bool :=
  match e with
  | EvMapRead _ | EvMapWrite _ _ => true
  | _ => false
  end.

Definition is_map_write (e : event) : bool :=
  match e with
  | EvMapWrite _ _ => true
  | _ => false
  end.

(** The map accesses of a trace that are made while the lock is not held;
    [held] says whether it is held at the start. *)
Fixpoint unguarded (held : bool) (evs : list event) : list event :=
  match evs with
  | [] => []
  | EvLock :: evs' => unguarded true evs'
  | EvUnlock :: evs' => unguarded false evs'
  | e :: evs' =>
      if is_map_access e && negb held
      then e :: unguarded held evs'
      else unguarded held evs'
  end.

(** One mutual-exclusion discipline over reads and writes: every access of
    the trace is made with the lock held. *)
Definition mutex_protected (evs : list event) : Prop := unguarded false evs = [].

(** Two accesses conflict when at least one of them writes the map (Go maps
    are not safe for concurrent use, whatever the keys). *)
Definition conflict (e1 e2 : event) : Prop :=
  is_map_access e1 = true ∧ is_map_access e2 = true
  ∧ (is_map_write e1 = true ∨ is_map_write e2 = true).

(** Two calls running concurrently race when they make conflicting accesses
    that no lock orders. *)
Definition data_race (t1 t2 : list event) : Prop :=
  ∃ e1 e2, e1 ∈ unguarded false t1 ∧ e2 ∈ unguarded false t2 ∧ conflict e1 e2.

(** ** Server addresses *)

(** Scheme and host of a server address [scheme://host[:port][/path]], in the
    words of the specification; the code has no such notion, it tests the
    address with [strings.Contains] and [strings.HasPrefix]. *)
Module address.

Definition is_delimiter (c : ascii) : bool :=
  (c =? "/")%char || (c =? ":")%char || (c =? "?")%char || (c =? "#")%char.

(** The characters before the first delimiter. *)
Fixpoint authority (s : string) : string :=
  match s with
  | EmptyString => EmptyString
  | String c s' => if is_delimiter c then EmptyString else String c (authority s')
  end.

Fixpoint skip (n : nat) (s : string) : string :=
  match n, s with
  | S n', String _ s' => skip n' s'
  | _, _ => s
  end.

Definition host (server : string) : string :=
  if strings.HasPrefix server "https://" then authority (skip 8 server)
  else if strings.HasPrefix server "http://" then authority (skip 7 server)
  else authority server.



End address.

(** ** Escaped names *)

(** The characters of an escaped query component: the unreserved ones, the
    percent sign of an escape and the plus sign of a space. *)
Definition escaped (c : ascii) : Prop :=
  url.unreserved c = true ∨ c = "%"%char ∨ c = "+"%char.

(** ** Options *)

Module options.

(** The field of the options at a destination has its zero value. *)
Definition isZero (opts : server.APIServerOptions) (dest : server.destination) : bool :=
  match dest with
  | server.toMongoDBHost => String.eqb (server.MongoDBHost opts) ""
  | server.toSaltKey => String.eqb (server.SaltKey opts) ""
  | server.toShowAPIDoc => negb (server.ShowAPIDoc opts)
  | server.toCloudAutoDiscovery => negb (server.CloudAutoDiscovery opts)
  | server.toRecordRotationThreshold => server.RecordRotationThreshold opts =? 0
  | server.toNotificationURL => String.eqb (server.NotificationURL opts) ""
  | server.toRecordWebURLTemplate => String.eqb (server.RecordWebURLTemplate opts) ""
  | server.toMongoGracePeriod => server.MongoGracePeriod opts =? 0
  | server.toCyclonePort => server.CyclonePort opts =? 0
  | server.toCycloneAddrTemplate => String.eqb (server.CycloneAddrTemplate opts) ""
  end.

End options.

(** ** Stubbed worlds, configs and language mappings *)

(** The float32 value of an integer. *)
Definition float32_of_Z (z : Z) : float32 := binary_normalize 24 128 z 0 false.

Module stub.

(** The double quote, and the body [{"access_token":"T"}]. *)
Definition quote : string := String (ascii_of_nat 34) EmptyString.

Definition tokenBody : string :=
  "{" +:+ quote +:+ "access_token" +:+ quote +:+ ":" +:+ quote +:+ "T" +:+ quote +:+ "}".

(** A world that answers every token request with [tokenAnswer] and every
    probe with [versionAnswer]; its decoders accept [tokenBody] and bodies
    that start with a brace. *)
Definition world (tokenAnswer versionAnswer : string + Response) : World := {|
  ParseServerURL := address.host;
  url_Parse_error := λ _, None;
  json_Marshal := λ b, inr (GrantType b +:+ "," +:+ BodyUsername b +:+ "," +:+ BodyPassword b);
  json_Unmarshal_Token := λ body,
    if decide (body = tokenBody) then inr (mkToken "T" "bearer" "")
    else inl "invalid character";
  json_Unmarshal_versionResponse := λ body,
    if String.prefix "{" body then inr (mkVersionResponse "11.0.0" "")
    else inl "invalid character";
  RoundTrip := λ c _,
    match c with
    | DefaultClient => tokenAnswer
    | NoRedirectClient => versionAnswer
    end;
  SetBaseURL_fails := λ _, None
|}.

Definition ok (code : Z) (body : string) : string + Response :=
  inr (mkResponse code (inr body)).

Definition refused : string + Response := inl "connection refused".

(** Configs: a private token, a username with password, nothing at all. *)
Definition withPrivateToken : SCMConfig :=
  mkSCMConfig "https://gitlab.example.com" "" "" "secret".

Definition withPassword (server : string) : SCMConfig :=
  mkSCMConfig server "alice" "wonderland" "".

Definition withNothing (server : string) : SCMConfig :=
  mkSCMConfig server "" "" "".

Definition fresh (c : SCMConfig) : state := mkState c ∅ [].

(** The probe of [withPrivateToken] and the token request of
    [withPassword "https://gitlab.example.com"]. *)
Definition probe : Request :=
  Header_Set
    (Header_Set (mkRequest "GET" "https://gitlab.example.com/api/v4/version" ∅ None)
                "Content-Type" "application/json")
    "PRIVATE-TOKEN" "secret".

Definition tokenRequest : Request :=
  Header_Set
    (mkRequest "POST" "https://gitlab.example.com/oauth/token" ∅
               (Some "password,alice,wonderland"))
    "Content-Type" "application/json".

End stub.

Module languages.

Definition Go_Python : gmap string float32 :=
  {[ "Go" := float32_of_Z 80; "Python" := float32_of_Z 20 ]}.

Definition nonpositive : gmap string float32 :=
  {[ "Go" := float32_zero; "Python" := float32_of_Z (-20) ]}.

End languages.

Module fixtures.

(** A world whose client libraries refuse every base URL. *)
Definition brokenBaseURL (versionAnswer : string + Response) : World := {|
  ParseServerURL := ParseServerURL (stub.world stub.refused versionAnswer);
  url_Parse_error := url_Parse_error (stub.world stub.refused versionAnswer);
  json_Marshal := json_Marshal (stub.world stub.refused versionAnswer);
  json_Unmarshal_Token := json_Unmarshal_Token (stub.world stub.refused versionAnswer);
  json_Unmarshal_versionResponse :=
    json_Unmarshal_versionResponse (stub.world stub.refused versionAnswer);
  RoundTrip := RoundTrip (stub.world stub.refused versionAnswer);
  SetBaseURL_fails := λ _, Some "invalid URI for request"
|}.

(** Decoders that accept a document by its first character. *)
Definition decoders : Decoders := {|
  json_Unmarshal_languages := λ body,
    if String.prefix "{" body then ({[ "Go" := float32_of_Z 80 ]}, None)
    else (∅, Some "invalid character");
  json_Unmarshal_RepoFiles := λ body,
    if String.prefix "[" body then ([mkRepoFile "README.md" "blob" "README.md"], None)
    else ([], Some "invalid character")
|}.

(** The request of [getContents] for [stub.withPrivateToken]. *)
Definition treeRequest : Request :=
  mkRequest "GET"
    "https://gitlab.example.com/api/v4/projects/group%2Fproject/repository/tree"
    {[ "PRIVATE-TOKEN" := "secret"; "Content-Type" := "application/json" ]}
    None.

End fixtures.

(** * Properties *)

(** ** Running monadic code *)

Ltac run :=
  repeat (progress
    (unfold mbind, M_bind, mret, M_ret, fail, try, orReturn, fromLib, log, emit,
       getCfg, setCfg, mapRead, mapWrite in *; simpl in * )).

Create HintDb keeps.

Section Keeps.

Context (P : event → Prop).

Lemma keeps_ret {A} (a : A) : keeps P (mret a).
Proof. intros s. split; [done|]. exists []. by rewrite app_nil_r. Qed.

Lemma keeps_fail {A} (e : error) : keeps P (@fail A e).
Proof. intros s. split; [done|]. exists []. by rewrite app_nil_r. Qed.

Lemma keeps_getCfg : keeps P getCfg.
Proof. intros s. split; [done|]. exists []. by rewrite app_nil_r. Qed.

Lemma keeps_setCfg c : keeps P (setCfg c).
Proof. intros s. split; [done|]. exists []. by rewrite app_nil_r. Qed.

Lemma keeps_emit e : P e → keeps P (emit e).
Proof. intros He s. split; [done|]. exists [e]. split; [done|]. by constructor. Qed.

Lemma keeps_bind {A B} (m : M A) (f : A → M B) :
  keeps P m → (∀ a, keeps P (f a)) → keeps P (m ≫= f).
Proof.
  intros Hm Hf s. unfold mbind, M_bind.
  destruct (Hm s) as [Hc (evs & He & Hall)].
  destruct (m s) as [[e|a] s1]; simpl in *.
  - split; [done|]. by exists evs.
  - destruct (Hf a s1) as [Hc' (evs' & He' & Hall')].
    split; [congruence|]. exists (evs ++ evs').
    rewrite He', He, app_assoc. split; [done|]. by apply Forall_app.
Qed.

Lemma keeps_try {A} (m : M A) : keeps P m → keeps P (try m).
Proof.
  intros Hm s. unfold try. specialize (Hm s). by destruct (m s) as [r s1].
Qed.

Lemma keeps_orReturn {A} (r : error + A) h :
  (∀ e, keeps P (h e)) → keeps P (orReturn r h).
Proof.
  intros Hh. destruct r as [e|a]; simpl.
  - apply keeps_bind; [done|]. intros. apply keeps_fail.
  - apply keeps_ret.
Qed.

Lemma keeps_if {A} (b : bool) (m1 m2 : M A) :
  keeps P m1 → keeps P m2 → keeps P (if b then m1 else m2).
Proof. by destruct b. Qed.

Lemma keeps_decide {A} (Q : Prop) `{Decision Q} (m1 m2 : M A) :
  keeps P m1 → keeps P m2 → keeps P (if decide Q then m1 else m2).
Proof. by destruct (decide Q). Qed.

End Keeps.

#[global] Hint Resolve keeps_ret keeps_fail keeps_getCfg keeps_setCfg keeps_emit
  keeps_bind keeps_try keeps_orReturn keeps_if keeps_decide : keeps.

Lemma is_token_io_io e : is_token_io e → is_io e.
Proof. by destruct e. Qed.

Lemma keeps_weaken {A} (P Q : event → Prop) (m : M A) :
  (∀ e, P e → Q e) → keeps P m → keeps Q m.
Proof.
  intros HPQ Hm s. destruct (Hm s) as [Hc (evs & He & Hall)].
  split; [done|]. exists evs. split; [done|]. by eapply Forall_impl.
Qed.

Lemma getOauthToken_keeps_token_io w : keeps is_token_io (getOauthToken w).
Proof.
  unfold getOauthToken, Do, log.
  repeat (first [ apply keeps_bind | apply keeps_if | apply keeps_orReturn
                | apply keeps_emit | intros ]; auto with keeps); done.
Qed.

Lemma getOauthToken_keeps w : keeps is_io (getOauthToken w).
Proof.
  eapply keeps_weaken; [apply is_token_io_io | apply getOauthToken_keeps_token_io].
Qed.

Lemma detectAPIVersion_keeps w : keeps is_io (detectAPIVersion w).
Proof.
  unfold detectAPIVersion, Do, log.
  repeat (first [ apply keeps_bind | apply keeps_if | apply keeps_decide
                | apply keeps_orReturn | apply keeps_try | apply getOauthToken_keeps
                | apply keeps_emit | intros ]; auto with keeps); done.
Qed.

(** ** Credential resolution: missing credentials *)

Lemma len_zero s : (len s =? 0) = true ↔ s = "".
Proof.
  unfold len. rewrite Z.eqb_eq. destruct s; simpl; [done|]. split; [lia|done].
Qed.

Lemma missing_credentials_test c :
  Username c = "" ∨ Password c = "" →
  (len (Username c) =? 0) || (len (Password c) =? 0) = true.
Proof.
  intros [H|H]; rewrite H; simpl; [done|]. by rewrite orb_true_r.
Qed.


(** C6: when the username or the password is empty, [getOauthToken] fails with
    the missing-credentials error and leaves the state as it was: the config
    is unchanged and no request is sent.  For a config whose token is empty,
    [detectAPIVersion] resolves the credential first, so it fails with the same
    error; it adds one log line, and nothing else. *)
Theorem getOauthToken_missing_credentials (w : World) (s : state) :
  Username (scmCfg s) = "" ∨ Password (scmCfg s) = "" →
  getOauthToken w s = (inl missingCredentials, s)
  ∧ (Token (scmCfg s) = "" →
     detectAPIVersion w s
     = (inl missingCredentials, after s (EvLog Error "%v" [AErr missingCredentials]))).
Proof.
  intros Hmiss. apply missing_credentials_test in Hmiss.
  assert (Hget : getOauthToken w s = (inl missingCredentials, s)).
  { unfold getOauthToken. run. by rewrite Hmiss. }
  split; [done|]. intros Htok.
  unfold detectAPIVersion. run. rewrite Htok. simpl.
  by rewrite Hget.
Qed.

(** ** Requests sent by a call *)

Lemma drop_events (l k : list event) : drop (length l) (l ++ k) = k.
Proof. apply drop_app_length. Qed.

Lemma drop_events_nil (l : list event) : drop (length l) l = [].
Proof. by rewrite drop_all. Qed.

(** Bring a hypothesis on the new events of a run to a membership in an
    explicit list, and split it. *)
Ltac trace_norm H :=
  unfold sent, new_events in H; simpl in H;
  rewrite <- ?app_assoc in H;
  try first [ rewrite drop_events_nil in H | rewrite drop_events in H ]; simpl in H.

Ltac sent_inv H :=
  trace_norm H;
  repeat (apply elem_of_cons in H as [H|H]; [try discriminate H|]);
  try (by apply elem_of_nil in H).

(** Case analysis on the next answer of the world, or the next test. *)
Ltac step :=
  match goal with
  | |- context [match json_Marshal ?w ?b with _ => _ end] =>
      destruct (json_Marshal w b) eqn:?
  | |- context [if ?b && ?c then _ else _] => destruct (b && c) eqn:?
  | |- context [match url_Parse_error ?w ?u with _ => _ end] =>
      destruct (url_Parse_error w u) eqn:?
  | |- context [match RoundTrip ?w ?c ?r with _ => _ end] =>
      destruct (RoundTrip w c r) as [?|[? [?|?]]] eqn:?
  | |- context [match json_Unmarshal_Token ?w ?b with _ => _ end] =>
      destruct (json_Unmarshal_Token w b) eqn:?
  | |- context [match json_Unmarshal_versionResponse ?w ?b with _ => _ end] =>
      destruct (json_Unmarshal_versionResponse w b) eqn:?
  | |- context [match SetBaseURL_fails ?w ?b with _ => _ end] =>
      destruct (SetBaseURL_fails w b) eqn:?
  | |- context [if ?x || ?y then _ else _] => destruct (x || y) eqn:?
  | |- context [if ?x =? ?y then _ else _] => destruct (x =? y) eqn:?
  end; simpl.

(** ** Credential resolution: the token exchange *)

(** Go's [resp.StatusCode/100 == 2] singles out the codes 200 to 299. *)
Lemma status_2xx (code : Z) : (code ÷ 100 =? 2) = true ↔ 200 ≤ code ≤ 299.
Proof.
  rewrite Z.eqb_eq. split.
  - intros H. pose proof (Z.quot_rem' code 100) as Hq.
    pose proof (Z.rem_bound_abs code 100).
    assert (0 ≤ code) as Hpos by lia.
    pose proof (Z.rem_bound_pos code 100 Hpos). lia.
  - intros H. symmetry. apply (Z.quot_unique code 100 2 (code - 200)); lia.
Qed.

(** C5: for the response that [getOauthToken] received for its token request
    (status [code], body [body]): a 2xx status with a body that decodes as an
    OAuth token yields the token's access-token field; any other status yields
    an error whose text carries the raw body; a 2xx status with a body that
    does not decode yields the decoder's error. *)
Theorem getOauthToken_exchange (w : World) (s : state) (req : Request)
    (code : Z) (body : string) :
  sent (getOauthToken w) s DefaultClient req →
  RoundTrip w DefaultClient req = inr (mkResponse code (inr body)) →
  (∀ token, 200 ≤ code ≤ 299 → json_Unmarshal_Token w body = inr token →
     (getOauthToken w s).1 = inr (AccessToken token))
  ∧ (¬ 200 ≤ code ≤ 299 →
     (getOauthToken w s).1 = inl (Errorf ("Fail to request for token as " +:+ body)))
  ∧ (∀ msg, 200 ≤ code ≤ 299 → json_Unmarshal_Token w body = inl msg →
     (getOauthToken w s).1 = inl (LibError json_Unmarshal_error msg)).
Proof.
  intros Hsent Hresp.
  unfold sent, new_events in Hsent.
  unfold getOauthToken, Do, ReadAll, http_NewRequest in *. run.
  revert Hsent.
  repeat step; intros Hsent; sent_inv Hsent; simplify_eq.
  all: match goal with
       | H1 : RoundTrip _ _ _ = _, H2 : RoundTrip _ _ _ = _ |- _ =>
           rewrite H1 in H2; simplify_eq
       end.
  all: repeat split; intros;
    repeat match goal with
      | H : 200 ≤ _ ≤ 299 |- _ => apply status_2xx in H
      | H : ¬ (200 ≤ _ ≤ 299) |- _ => rewrite <- status_2xx in H
      end; congruence.
Qed.

(** ** Version probing *)

Ltac bool_facts :=
  repeat match goal with
    | H : (_ || _) = true |- _ => apply orb_true_iff in H
    | H : (_ || _) = false |- _ => apply orb_false_iff in H as [? ?]
    | H : (_ =? _) = true |- _ => apply Z.eqb_eq in H
    | H : (_ =? _) = false |- _ => apply Z.eqb_neq in H
    end;
  unfold StatusOK, StatusNotFound, StatusFound in *.

(** Two answers of the world to one request are the same answer. *)
Ltac same_answer :=
  try match goal with
    | H1 : RoundTrip ?w ?c ?r = _, H2 : RoundTrip ?w ?c ?r = _ |- _ =>
        rewrite H1 in H2; simplify_eq
    end;
  try match goal with
    | H1 : json_Unmarshal_versionResponse ?w ?b = _,
      H2 : json_Unmarshal_versionResponse ?w ?b = _ |- _ =>
        rewrite H1 in H2; simplify_eq
    end.

Ltac in_trace :=
  repeat first [ apply list_elem_of_here | apply list_elem_of_further ].

(** C1: for the response that [detectAPIVersion] received for its probe:
    status 200 with a body that decodes as a version object gives ["v4"];
    status 404 or 302 gives ["v3"]; any other status gives ["v3"] too, and a
    warning is logged; a transport failure gives the transport's error, and
    no version. *)
Theorem detectAPIVersion_classification (w : World) (s : state) (req : Request) :
  sent (detectAPIVersion w) s NoRedirectClient req →
  (∀ body gv,
     RoundTrip w NoRedirectClient req = inr (mkResponse StatusOK (inr body)) →
     json_Unmarshal_versionResponse w body = inr gv →
     (detectAPIVersion w s).1 = inr v4APIVersion)
  ∧ (∀ code body,
     RoundTrip w NoRedirectClient req = inr (mkResponse code body) →
     code = StatusNotFound ∨ code = StatusFound →
     (detectAPIVersion w s).1 = inr v3APIVersion)
  ∧ (∀ code body,
     RoundTrip w NoRedirectClient req = inr (mkResponse code body) →
     code ≠ StatusOK → code ≠ StatusNotFound → code ≠ StatusFound →
     (detectAPIVersion w s).1 = inr v3APIVersion
     ∧ EvLog Warning "Status code of Gitlab API version request is %d, use v3 in default"
             [AInt code] ∈ new_events (detectAPIVersion w) s)
  ∧ (∀ msg,
     RoundTrip w NoRedirectClient req = inl msg →
     (detectAPIVersion w s).1 = inl (LibError http_Do_error msg)).
Proof.
  intros Hsent.
  unfold sent, new_events in *.
  unfold detectAPIVersion, Do, ReadAll, http_NewRequest in *. run.
  revert Hsent.
  destruct (decide (Token (scmCfg s) = "")) as [Htok|Htok]; simpl.
  - destruct (getOauthToken_keeps_token_io w s) as [_ (evs & Hev & Hall)].
    rewrite Forall_forall in Hall.
    destruct (getOauthToken w s) as [[e|tok] s0]; simpl in *.
    + rewrite Hev, <- app_assoc, drop_events. intros Hsent.
      apply elem_of_app in Hsent as [Hin|Hin]; [by apply Hall in Hin|].
      sent_inv Hin.
    + repeat step.
      all: rewrite Hev, <- ?app_assoc, drop_events; simpl; intros Hsent.
      all: apply elem_of_app in Hsent as [Hin|Hin]; [by apply Hall in Hin|].
      all: sent_inv Hin; simplify_eq.
      all: repeat split; intros; same_answer; bool_facts;
        try done; try lia; try (apply elem_of_app; right; in_trace).
  - repeat step.
    all: rewrite <- ?app_assoc, drop_events; simpl; intros Hsent.
    all: sent_inv Hsent; simplify_eq.
    all: repeat split; intros; same_answer; bool_facts;
      try done; try lia; try in_trace.
Qed.

(** ** The version cache *)

Lemma requests_app l k : requests (l ++ k) = requests l ++ requests k.
Proof. apply omap_app. Qed.

Lemma requests_log l lvl f a : requests (l ++ [EvLog lvl f a]) = requests l.
Proof. rewrite requests_app. simpl. apply app_nil_r. Qed.

Lemma requests_read l k : requests (l ++ [EvMapRead k]) = requests l.
Proof. rewrite requests_app. simpl. apply app_nil_r. Qed.

(** A cache hit: the cached value is returned, the state only gains the record
    of the map read. *)
Lemma getAPIVersion_hit w s v :
  gitlabServerAPIVersions s !! ParseServerURL w (Server (scmCfg s)) = Some v →
  getAPIVersion w s = (inr v, after s (EvMapRead (ParseServerURL w (Server (scmCfg s))))).
Proof. intros Hhit. unfold getAPIVersion. run. by rewrite Hhit. Qed.

(** A cache miss: the outcome is that of [detectAPIVersion], and the map is
    written exactly when that outcome is a version. *)
Lemma getAPIVersion_miss w s :
  gitlabServerAPIVersions s !! ParseServerURL w (Server (scmCfg s)) = None →
  let server := ParseServerURL w (Server (scmCfg s)) in
  getAPIVersion w s =
    match detectAPIVersion w (after s (EvMapRead server)) with
    | (inr version, s1) =>
        (inr version,
         mkState (scmCfg s1) (<[server := version]> (gitlabServerAPIVersions s1))
                 (events s1 ++ [EvMapWrite server version]))
    | (inl err, s1) => (inl err, s1)
    end.
Proof.
  intros Hmiss. unfold getAPIVersion, after. run. rewrite Hmiss.
  by destruct (detectAPIVersion w _) as [[err|version] s1].
Qed.

Lemma detectAPIVersion_cache w s :
  gitlabServerAPIVersions (detectAPIVersion w s).2 = gitlabServerAPIVersions s.
Proof. apply (detectAPIVersion_keeps w s). Qed.

(** After [getAPIVersion], [NewGitlab] only logs and constructs a client: it
    sends nothing and leaves the map alone. *)
Lemma NewGitlab_after_getAPIVersion w s :
  requests (events (NewGitlab w s).2) = requests (events (getAPIVersion w s).2)
  ∧ gitlabServerAPIVersions (NewGitlab w s).2
    = gitlabServerAPIVersions (getAPIVersion w s).2.
Proof.
  unfold NewGitlab, newGitlabV3Client, newGitlabV4Client, newGitlabClient. run.
  destruct (getAPIVersion w s) as [[err|version] s1]; simpl.
  - by rewrite requests_log.
  - repeat (case_decide; simpl); repeat step; simpl; by rewrite ?requests_log.
Qed.

(** C2: when the identity of the server is in the cache, [getAPIVersion]
    returns the cached version and neither it nor [NewGitlab] sends a request
    or changes the cache; on a miss, a version found by [detectAPIVersion] is
    returned and written under that identity, and a failure of
    [detectAPIVersion] is returned with the cache as it was. *)
Theorem getAPIVersion_cache (w : World) (s : state) :
  let server := ParseServerURL w (Server (scmCfg s)) in
  let s0 := after s (EvMapRead server) in
  (∀ v, gitlabServerAPIVersions s !! server = Some v →
     getAPIVersion w s = (inr v, s0)
     ∧ requests (events (NewGitlab w s).2) = requests (events s)
     ∧ gitlabServerAPIVersions (NewGitlab w s).2 = gitlabServerAPIVersions s)
  ∧ (gitlabServerAPIVersions s !! server = None →
     (∀ version s1, detectAPIVersion w s0 = (inr version, s1) →
        getAPIVersion w s =
          (inr version,
           mkState (scmCfg s1) (<[server := version]> (gitlabServerAPIVersions s))
                   (events s1 ++ [EvMapWrite server version])))
     ∧ (∀ err s1, detectAPIVersion w s0 = (inl err, s1) →
        getAPIVersion w s = (inl err, s1)
        ∧ gitlabServerAPIVersions s1 = gitlabServerAPIVersions s
        ∧ gitlabServerAPIVersions (NewGitlab w s).2 = gitlabServerAPIVersions s)).
Proof.
  intros server s0. split.
  - intros v Hhit.
    pose proof (getAPIVersion_hit w s v Hhit) as Hget.
    destruct (NewGitlab_after_getAPIVersion w s) as [Hreq Hmap].
    rewrite Hget in Hreq, Hmap. simpl in *.
    rewrite requests_read in Hreq. done.
  - intros Hmiss. pose proof (getAPIVersion_miss w s Hmiss) as Hget.
    cbv zeta in Hget. fold server in Hget. fold s0 in Hget.
    pose proof (detectAPIVersion_cache w s0) as Hkeep.
    split.
    + intros version s1 Hdet. rewrite Hdet in Hget, Hkeep. simpl in *.
      by rewrite Hget, Hkeep.
    + intros err s1 Hdet. rewrite Hdet in Hget, Hkeep. simpl in *.
      destruct (NewGitlab_after_getAPIVersion w s) as [_ Hmap].
      rewrite Hget in Hmap. simpl in Hmap. by rewrite Hmap.
Qed.

(** ** Supported versions *)








(** ** Accesses to the package-level map and mutual exclusion *)

Lemma unguarded_io held evs : Forall is_io evs → unguarded held evs = [].
Proof.
  induction 1 as [|e evs He _ IH]; [done|]. by destruct e.
Qed.

Lemma unguarded_io_app held evs k :
  Forall is_io evs → unguarded held (evs ++ k) = unguarded held k.
Proof.
  induction 1 as [|e evs He _ IH]; [done|]. by destruct e.
Qed.

Lemma filter_io evs : Forall is_io evs → filter is_map_access evs = [].
Proof.
  induction 1 as [|e evs He _ IH]; [done|]. by destruct e.
Qed.

Lemma not_lock_io evs : Forall is_io evs → (EvLock ∉ evs) ∧ (EvUnlock ∉ evs).
Proof.
  rewrite Forall_forall. intros Hall. split; intros Hin; by apply Hall in Hin.
Qed.

Lemma unguarded_read_io k io :
  Forall is_io io → unguarded false (EvMapRead k :: io) = [EvMapRead k].
Proof. intros Hall. simpl. by rewrite unguarded_io. Qed.

Lemma unguarded_read_io_write k io v :
  Forall is_io io →
  unguarded false (EvMapRead k :: (io ++ [EvMapWrite k v]))
  = [EvMapRead k; EvMapWrite k v].
Proof. intros Hall. simpl. by rewrite unguarded_io_app. Qed.

Lemma accesses_read_io k io :
  Forall is_io io → filter is_map_access (EvMapRead k :: io) = [EvMapRead k].
Proof. intros Hall. rewrite filter_cons. simpl. by rewrite filter_io. Qed.

Lemma accesses_read_io_write k io v :
  Forall is_io io →
  filter is_map_access (EvMapRead k :: (io ++ [EvMapWrite k v]))
  = [EvMapRead k; EvMapWrite k v].
Proof.
  intros Hall. rewrite filter_cons. simpl. by rewrite filter_app, filter_io.
Qed.

(** The events of a call of [getAPIVersion]: the read of the map, the log
    lines and round trips of the probe, and, exactly when the call is a miss
    that ends with a version, the write of the map. *)
Lemma getAPIVersion_events w s :
  let server := ParseServerURL w (Server (scmCfg s)) in
  ∃ io, Forall is_io io
    ∧ ((new_events (getAPIVersion w) s = EvMapRead server :: io
        ∧ (is_Some (gitlabServerAPIVersions s !! server)
           ∨ ∃ err, (getAPIVersion w s).1 = inl err))
       ∨ ∃ version, new_events (getAPIVersion w) s
                    = EvMapRead server :: (io ++ [EvMapWrite server version])
                    ∧ gitlabServerAPIVersions s !! server = None
                    ∧ (getAPIVersion w s).1 = inr version).
Proof.
  intros server. unfold new_events.
  destruct (gitlabServerAPIVersions s !! server) as [v|] eqn:Hlook.
  - rewrite (getAPIVersion_hit w s v Hlook). simpl.
    exists []. split; [done|]. left. fold server. rewrite drop_events. eauto.
  - rewrite (getAPIVersion_miss w s Hlook). cbv zeta. fold server.
    destruct (detectAPIVersion_keeps w (after s (EvMapRead server)))
      as [_ (io & Hev & Hall)].
    exists io. split; [done|].
    destruct (detectAPIVersion w _) as [[err|version] s1]; simpl in *.
    + left. rewrite Hev, <- app_assoc, drop_events. eauto.
    + right. exists version. by rewrite Hev, <- !app_assoc, drop_events.
Qed.

(** C4, as the code has it: a call of [getAPIVersion] takes no lock.  It
    reads the map once, without the lock, and after a probe that found a
    version on a miss it writes the map once, without the lock; these are
    all its accesses. *)
Theorem getAPIVersion_unsynchronised (w : World) (s : state) :
  let server := ParseServerURL w (Server (scmCfg s)) in
  let evs := new_events (getAPIVersion w) s in
  (EvLock ∉ evs) ∧ (EvUnlock ∉ evs)
  ∧ unguarded false evs = filter is_map_access evs
  ∧ (filter is_map_access evs = [EvMapRead server]
     ∨ ∃ version, filter is_map_access evs
                  = [EvMapRead server; EvMapWrite server version]
                  ∧ gitlabServerAPIVersions s !! server = None
                  ∧ (getAPIVersion w s).1 = inr version).
Proof.
  intros server evs. subst evs.
  destruct (getAPIVersion_events w s) as (io & Hall & Hev). fold server in Hev.
  pose proof (not_lock_io io Hall) as [Hl Hu].
  destruct Hev as [[-> _] | (version & -> & Hmiss & Hres)].
  - rewrite unguarded_read_io, accesses_read_io by done. repeat split.
    + by intros [?|?]%elem_of_cons.
    + by intros [?|?]%elem_of_cons.
    + by left.
  - rewrite unguarded_read_io_write, accesses_read_io_write by done.
    repeat split.
    + intros [?|[?|Hin]%elem_of_app]%elem_of_cons; [done..|]. sent_inv Hin.
    + intros [?|[?|Hin]%elem_of_app]%elem_of_cons; [done..|]. sent_inv Hin.
    + right. by exists version.
Qed.

(** So two concurrent calls race as soon as one of them records a version:
    its write conflicts with the read every call starts with. *)
Lemma getAPIVersion_data_race w1 s1 w2 s2 version :
  gitlabServerAPIVersions s1 !! ParseServerURL w1 (Server (scmCfg s1)) = None →
  (getAPIVersion w1 s1).1 = inr version →
  data_race (new_events (getAPIVersion w1) s1) (new_events (getAPIVersion w2) s2).
Proof.
  intros Hmiss Hres. unfold data_race.
  destruct (getAPIVersion_events w1 s1) as (io1 & Hall1 & Hev1).
  destruct (getAPIVersion_events w2 s2) as (io2 & Hall2 & Hev2).
  destruct Hev1 as [[_ [[v Hhit] | [err Herr]]] | (v1 & -> & _ & _)].
  - by rewrite Hmiss in Hhit.
  - by rewrite Hres in Herr.
  - exists (EvMapWrite (ParseServerURL w1 (Server (scmCfg s1))) v1),
           (EvMapRead (ParseServerURL w2 (Server (scmCfg s2)))).
    rewrite unguarded_read_io_write by done.
    split; [in_trace|]. split.
    + destruct Hev2 as [[-> _] | (v2 & -> & _)].
      * rewrite unguarded_read_io by done. in_trace.
      * rewrite unguarded_read_io_write by done. in_trace.
    + repeat split; auto.
Qed.

(** ** The rewrite of the server to the public Gitlab endpoint *)










(** ** Status translation *)

(** C7: [transStatus] maps [api.Running] to "running" and [api.Success] to
    "success" with their descriptions, and every status that is none of the
    four constants to the default pair ("pending", ""), which it returns after
    logging the status; it has a result for every status. *)
Theorem transStatus_mapping {Status : Type} `{EqDecision Status}
    (Running Success Failed Aborted : Status) :
  Running ≠ Success →
  (transStatus Running Success Failed Aborted Running).1
    = ("running", "The Cyclone CI build is in progress.")
  ∧ (transStatus Running Success Failed Aborted Success).1
    = ("success", "The Cyclone CI build passed.")
  ∧ ∀ recordStatus,
      recordStatus ≠ Running → recordStatus ≠ Success →
      recordStatus ≠ Failed → recordStatus ≠ Aborted →
      transStatus Running Success Failed Aborted recordStatus
      = (("pending", ""), [(Error, "not supported state:%s", recordStatus)]).
Proof.
  intros Hne. unfold transStatus. repeat split.
  - by rewrite decide_True.
  - by rewrite decide_False, decide_True.
  - intros recordStatus ? ? ? ?. by rewrite !decide_False.
Qed.

(** ** The top language *)

(** Comparisons of [float32] that the proofs need. *)
Lemma gt32_asym (a b : float32) : gt32 a b = true → gt32 b a = false.
Proof.
  unfold gt32, SFltb, SFcompare.
  destruct a as [sa|sa| |sa ma ea], b as [sb|sb| |sb mb eb]; simpl; try done;
    try (by destruct sa); try (by destruct sb); try (by destruct sa, sb).
  destruct sa, sb; try done.
  all: rewrite (Z.compare_antisym eb ea);
    replace (Pos.compare_cont Eq ma mb) with (CompOpp (Pos.compare_cont Eq mb ma))
      by apply (Pos.compare_cont_antisym mb ma Eq);
    destruct (eb ?= ea)%Z; simpl; try done;
    by destruct (Pos.compare_cont Eq mb ma).
Qed.

Lemma le_zero_not_gt (v : float32) :
  SFleb v float32_zero = true → gt32 v float32_zero = false.
Proof.
  unfold gt32, SFleb, SFltb, SFcompare, float32_zero.
  destruct v as [sv|sv| |sv mv ev]; simpl; try done; by destruct sv.
Qed.

(** The loop keeps its state over entries that are not greater than the
    running maximum. *)
Lemma getTopLanguage_no_update (l : list (string * float32)) language max :
  (∀ k v, (k, v) ∈ l → gt32 v max = false) →
  fold_left getTopLanguage_step l (language, max) = (language, max).
Proof.
  induction l as [|[k v] l IH]; intros Hle; simpl; [done|].
  rewrite (Hle k v) by apply list_elem_of_here.
  apply IH. intros k' v' Hin. apply (Hle k'). by apply list_elem_of_further.
Qed.

(** The state of the loop is the initial one or an entry it went over. *)
Lemma getTopLanguage_state (l : list (string * float32)) acc :
  fold_left getTopLanguage_step l acc = acc
  ∨ fold_left getTopLanguage_step l acc ∈ l.
Proof.
  revert acc. induction l as [|[k v] l IH]; intros [language max]; simpl; [by left|].
  destruct (gt32 v max).
  - destruct (IH (k, v)) as [-> | Hin]; right;
      [apply list_elem_of_here | by apply list_elem_of_further].
  - destruct (IH (language, max)) as [-> | Hin];
      [by left | right; by apply list_elem_of_further].
Qed.

(** The entries of a visit order are the entries of the map, each key once. *)
Lemma range_of_lookup m order k v :
  range_of m order → (k, v) ∈ order ↔ m !! k = Some v.
Proof. intros Horder. rewrite Horder. apply elem_of_map_to_list. Qed.

Lemma range_of_NoDup m order : range_of m order → NoDup (order.*1).
Proof. intros Horder. rewrite Horder. apply NoDup_fst_map_to_list. Qed.

(** C8, as the code has it: for a mapping with a key whose value is greater
    than zero and greater than every other value, [getTopLanguage] returns
    that key, in whatever order the map is visited; for the empty mapping it
    returns the empty string. *)
Theorem getTopLanguage_strict_max (m : gmap string float32)
    (order : list (string * float32)) (k : string) (v : float32) :
  range_of m order →
  m !! k = Some v →
  gt32 v float32_zero = true →
  (∀ k' v', m !! k' = Some v' → k' ≠ k → gt32 v v' = true) →
  getTopLanguage order = k ∧ getTopLanguage [] = "".
Proof.
  intros Horder Hk Hpos Hmax. split; [|done].
  pose proof (range_of_NoDup m order Horder) as Hnd.
  assert ((k, v) ∈ order) as Hin by by apply (range_of_lookup m).
  apply list_elem_of_split in Hin as (l1 & l2 & Hsplit).
  assert (∀ k' v', (k', v') ∈ l1 ∨ (k', v') ∈ l2 → gt32 v v' = true) as Hothers.
  { intros k' v' Hin. apply (Hmax k').
    - apply (range_of_lookup m order); [done|]. rewrite Hsplit.
      apply elem_of_app. destruct Hin; [by left|right; by apply list_elem_of_further].
    - intros ->. rewrite Hsplit, fmap_app, fmap_cons in Hnd. simpl in Hnd.
      apply NoDup_app in Hnd as (_ & Hdisj & [Hnot _]%NoDup_cons).
      destruct Hin as [Hin|Hin].
      + apply (Hdisj k); [|apply list_elem_of_here].
        apply list_elem_of_fmap. by exists (k, v').
      + apply Hnot. apply list_elem_of_fmap. by exists (k, v'). }
  unfold getTopLanguage. rewrite Hsplit, fold_left_app. simpl.
  destruct (fold_left getTopLanguage_step l1 ("", float32_zero))
    as [language max] eqn:Hl1. simpl.
  assert (gt32 v max = true) as ->.
  { destruct (getTopLanguage_state l1 ("", float32_zero)) as [Hst|Hst];
      rewrite Hl1 in Hst.
    - by injection Hst as _ ->.
    - apply (Hothers language). by left. }
  rewrite getTopLanguage_no_update; [done|].
  intros k' v' Hin. apply gt32_asym, (Hothers k'). by right.
Qed.

(** C10: when every value of the mapping (empty or not) is less than or equal
    to zero, [getTopLanguage] returns the empty string, in whatever order the
    map is visited: no value is greater than the running maximum, which starts
    at zero. *)
Theorem getTopLanguage_nonpositive (m : gmap string float32)
    (order : list (string * float32)) :
  range_of m order →
  (∀ k v, m !! k = Some v → SFleb v float32_zero = true) →
  getTopLanguage order = "".
Proof.
  intros Horder Hle. unfold getTopLanguage.
  rewrite getTopLanguage_no_update; [done|].
  intros k v Hin. apply le_zero_not_gt, (Hle k).
  by apply (range_of_lookup m order).
Qed.

(** ** Strings *)

(** Suffixes of a concatenation. *)
Lemma length_append (a b : string) :
  String.length (a +:+ b) = (String.length a + String.length b)%nat.
Proof. induction a as [|c a IH]; simpl; [done|]. by rewrite IH. Qed.

Lemma substring_all (b : string) : String.substring 0 (String.length b) b = b.
Proof. induction b as [|c b IH]; simpl; [done|]. by rewrite IH. Qed.

Lemma substring_append_r (a b : string) :
  String.substring (String.length a) (String.length b) (a +:+ b) = b.
Proof. induction a as [|c a IH]; simpl; [apply substring_all|done]. Qed.

Lemma substring_append_l (a b : string) :
  String.substring 0 (String.length a) (a +:+ b) = a.
Proof.
  induction a as [|c a IH]; simpl; [by destruct b|]. by rewrite IH.
Qed.

Lemma HasSuffix_append (a b : string) : strings.HasSuffix (a +:+ b) b = true.
Proof.
  unfold strings.HasSuffix. rewrite length_append.
  replace (String.length a + String.length b - String.length b)%nat
    with (String.length a) by lia.
  rewrite substring_append_r, String.eqb_refl, andb_true_r.
  apply Nat.leb_le. lia.
Qed.

Lemma TrimSuffix_append (a b : string) : strings.TrimSuffix (a +:+ b) b = a.
Proof.
  unfold strings.TrimSuffix. rewrite HasSuffix_append, length_append.
  replace (String.length a + String.length b - String.length b)%nat
    with (String.length a) by lia.
  apply substring_append_l.
Qed.

(** The two spellings of the test on the user name. *)
Lemma auth_by_username {B} (username : string) (x y : B) :
  (if decide (username = "") then x else y) = (if len username =? 0 then x else y).
Proof.
  case_decide as Hu; [by rewrite (proj2 (len_zero _) Hu)|].
  destruct (len username =? 0) eqn:Hl; [by apply len_zero in Hl|done].
Qed.

(** ** Escaping *)

Lemma upperhex_unreserved (c : ascii) :
  url.unreserved (url.upperhex (nat_of_ascii c / 16)) = true
  ∧ url.unreserved (url.upperhex (nat_of_ascii c mod 16)) = true.
Proof. destruct c as [[] [] [] [] [] [] [] []]; vm_compute; done. Qed.

Lemma QueryEscape_escaped (s : string) :
  Forall escaped (list_ascii_of_string (url.QueryEscape s)).
Proof.
  induction s as [|c s IH]; simpl; [constructor|].
  destruct (url.unreserved c) eqn:Hc; simpl.
  - constructor; [by left|done].
  - destruct (c =? " ")%char; simpl.
    + constructor; [unfold escaped; auto|done].
    + destruct (upperhex_unreserved c) as [Hhi Hlo].
      repeat (constructor; [unfold escaped; auto|]). done.
Qed.

Lemma escaped_not_slash (c : ascii) : escaped c → c ≠ "/"%char.
Proof. intros [Hc|[->| ->]]; [|done..]. by intros ->. Qed.

(** ** The requests of a call, in order *)

(** The new events of [getOauthToken]: log lines, around the token request
    if it is sent. *)
Ltac logs_only := solve [ eexists; split; [|left; reflexivity]; repeat constructor ].

Ltac token_io :=
  split;
    [|right; eexists _, _;
      split; [|split; [reflexivity|split; [done|split; [done|reflexivity]]]]];
  repeat constructor.

Lemma getOauthToken_events w s :
  ∃ logs, Forall is_log logs ∧
    (new_events (getOauthToken w) s = logs
     ∨ ∃ bodyBytes logs', Forall is_log logs'
         ∧ json_Marshal w (mkBodyData "password" (Username (scmCfg s))
                                      (Password (scmCfg s))) = inr bodyBytes
         ∧ Username (scmCfg s) ≠ "" ∧ Password (scmCfg s) ≠ ""
         ∧ new_events (getOauthToken w) s
           = logs ++ EvDo DefaultClient
                       (oauthTokenRequest (scmCfg (getOauthToken w s).2) bodyBytes)
                     :: logs').
Proof.
  unfold new_events, getOauthToken, Do, ReadAll, http_NewRequest. run.
  destruct ((len (Username (scmCfg s)) =? 0) || (len (Password (scmCfg s)) =? 0))
    eqn:Hcred; simpl.
  { rewrite drop_events_nil. logs_only. }
  apply orb_false_iff in Hcred as [Hu Hp].
  assert (Username (scmCfg s) ≠ "") by (intros Heq; apply len_zero in Heq; congruence).
  assert (Password (scmCfg s) ≠ "") by (intros Heq; apply len_zero in Heq; congruence).
  repeat step.
  all: rewrite <- ?app_assoc; rewrite ?drop_events, ?drop_events_nil; simpl.
  all: try logs_only.
  all: try solve [ exists []; token_io ].
  all: try solve [ eexists [_]; token_io ].
Qed.

(** The new events of [detectAPIVersion]: those of the token exchange if the
    config has no token, then log lines, after the probe if it is sent. *)
Ltac probe_leaf :=
  unfold versionRequest, Header_Set; simpl;
  first [ rewrite decide_True by done | rewrite decide_False by done ]; done.

Ltac probe_io :=
  eexists; split; [reflexivity|];
  first [ left; solve [repeat constructor]
        | right; eexists; split; [|f_equal; f_equal; probe_leaf]; repeat constructor ].

Lemma detectAPIVersion_events w s :
  ∃ probeIO,
    new_events (detectAPIVersion w) s
      = (if decide (Token (scmCfg s) = "") then new_events (getOauthToken w) s else [])
        ++ probeIO
    ∧ (Forall is_log probeIO
       ∨ ∃ logs, Forall is_log logs
           ∧ probeIO = EvDo NoRedirectClient
                         (versionRequest (scmCfg (detectAPIVersion w s).2)) :: logs).
Proof.
  unfold new_events.
  unfold detectAPIVersion, Do, ReadAll, http_NewRequest. run.
  destruct (decide (Token (scmCfg s) = "")) as [Htok|Htok]; simpl.
  - destruct (getOauthToken_keeps_token_io w s) as [_ (evs & Hev & _)].
    destruct (getOauthToken w s) as [[e|tok] s0]; simpl in *.
    + rewrite Hev, <- ?app_assoc, !drop_events. probe_io.
    + destruct (decide (Username (scmCfg s0) = "")); repeat step.
      all: rewrite Hev, <- ?app_assoc, !drop_events; simpl.
      all: probe_io.
  - destruct (decide (Username (scmCfg s) = "")); repeat step.
    all: rewrite <- ?app_assoc, ?drop_events, ?drop_events_nil; simpl.
    all: probe_io.
Qed.

(** Log lines are no round trips. *)
Lemma is_log_not_request c req logs : Forall is_log logs → EvDo c req ∉ logs.
Proof. rewrite Forall_forall. intros Hall Hin. by apply Hall in Hin. Qed.


(** The version probe: whatever [detectAPIVersion] sends through the client
    that does not follow redirects is the one request [GET
    <server>/api/v4/version], with the content type and with the token in the
    header the user name selects ([PRIVATE-TOKEN] without a user name,
    [Authorization: Bearer] with one); server and token are those of the
    config as the call leaves it, so a token fetched during the call and a
    rewritten server are the ones used. *)
Theorem detectAPIVersion_probe_request (w : World) (s : state) (req : Request) :
  sent (detectAPIVersion w) s NoRedirectClient req →
  req = versionRequest (scmCfg (detectAPIVersion w s).2).
Proof.
  unfold sent. intros Hsent.
  destruct (detectAPIVersion_events w s) as (probeIO & Hev & Hprobe).
  rewrite Hev in Hsent. apply elem_of_app in Hsent as [Hin|Hin].
  - case_decide; [|by apply elem_of_nil in Hin].
    destruct (getOauthToken_keeps_token_io w s) as [_ (evs & Hevs & Hall)].
    unfold new_events in Hin. rewrite Hevs, drop_events in Hin.
    rewrite Forall_forall in Hall. by apply Hall in Hin.
  - destruct Hprobe as [Hlogs | (logs & Hlogs & ->)].
    + by apply is_log_not_request in Hin.
    + apply elem_of_cons in Hin as [[= ->] | Hin]; [done|].
      by apply is_log_not_request in Hin.
Qed.

(** The token request: whatever [getOauthToken] sends is [POST
    <server>/oauth/token] with the encoded grant as body and the JSON content
    type as only header, for a config with a user name and a password; the
    server is that of the config as the call leaves it, which is the public
    endpoint when the address was rewritten. *)
Theorem getOauthToken_token_request (w : World) (s : state) (req : Request) :
  sent (getOauthToken w) s DefaultClient req →
  Username (scmCfg s) ≠ "" ∧ Password (scmCfg s) ≠ ""
  ∧ ∃ bodyBytes,
      json_Marshal w (mkBodyData "password" (Username (scmCfg s)) (Password (scmCfg s)))
        = inr bodyBytes
      ∧ req = oauthTokenRequest (scmCfg (getOauthToken w s).2) bodyBytes.
Proof.
  unfold sent. intros Hsent.
  destruct (getOauthToken_events w s) as (logs & Hlogs & [Hev | Hev]).
  - rewrite Hev in Hsent. by apply is_log_not_request in Hsent.
  - destruct Hev as (bodyBytes & logs' & Hlogs' & Hbody & Hu & Hp & Hev).
    rewrite Hev in Hsent. split; [done|]. split; [done|]. exists bodyBytes.
    split; [done|].
    apply elem_of_app in Hsent as [Hin|Hin]; [by apply is_log_not_request in Hin|].
    apply elem_of_cons in Hin as [[= ->] | Hin]; [done|].
    by apply is_log_not_request in Hin.
Qed.

(** What [detectAPIVersion] does to the config. *)
Lemma detectAPIVersion_config w s :
  scmCfg (detectAPIVersion w s).2 =
    if decide (Token (scmCfg s) = "") then
      match getOauthToken w s with
      | (inr token, s0) => withToken (scmCfg s0) token
      | (inl _, s0) => scmCfg s0
      end
    else scmCfg s.
Proof.
  unfold detectAPIVersion, Do, ReadAll, http_NewRequest. run.
  destruct (decide (Token (scmCfg s) = "")); simpl.
  - destruct (getOauthToken w s) as [[e0|tok] s0]; simpl; [done|].
    by repeat step.
  - by repeat step.
Qed.

Lemma getAPIVersion_extends w s : ∃ evs, events (getAPIVersion w s).2 = events s ++ evs.
Proof.
  destruct (getAPIVersion_events w s) as (io & _ & Hev). unfold new_events in Hev.
  destruct (gitlabServerAPIVersions s !! ParseServerURL w (Server (scmCfg s)))
    as [v|] eqn:Hlook.
  - rewrite (getAPIVersion_hit w s v Hlook). by eexists.
  - rewrite (getAPIVersion_miss w s Hlook). cbv zeta.
    destruct (detectAPIVersion_keeps w
      (after s (EvMapRead (ParseServerURL w (Server (scmCfg s))))))
      as [_ (evs & Hevs & _)].
    destruct (detectAPIVersion w _) as [[err|version] s1]; simpl in *.
    + rewrite Hevs, <- app_assoc. by eexists.
    + rewrite Hevs, <- !app_assoc. by eexists.
Qed.

(** After [getAPIVersion], [NewGitlab] adds log lines and nothing else. *)
Lemma NewGitlab_tail w s :
  scmCfg (NewGitlab w s).2 = scmCfg (getAPIVersion w s).2
  ∧ ∃ logs, Forall is_log logs
      ∧ events (NewGitlab w s).2 = events (getAPIVersion w s).2 ++ logs.
Proof.
  unfold NewGitlab, newGitlabV3Client, newGitlabV4Client, newGitlabClient. run.
  destruct (getAPIVersion w s) as [[err|version] s1]; simpl.
  - split; [done|]. eexists. split; [|reflexivity]. repeat constructor.
  - repeat (case_decide; simpl); repeat step; simpl;
      (split; [done|]); rewrite <- ?app_assoc;
      (eexists; split; [|reflexivity]; repeat constructor).
Qed.

Lemma NewGitlab_new_events w s :
  ∃ logs, Forall is_log logs
    ∧ new_events (NewGitlab w) s = new_events (getAPIVersion w) s ++ logs.
Proof.
  destruct (NewGitlab_tail w s) as [_ (logs & Hlogs & Hev)].
  destruct (getAPIVersion_extends w s) as [evs Hevs].
  exists logs. split; [done|]. unfold new_events.
  by rewrite Hev, Hevs, <- app_assoc, !drop_events.
Qed.

(** The new events of [getAPIVersion] in terms of those of the probe. *)
Lemma getAPIVersion_new_events w s :
  new_events (getAPIVersion w) s =
    EvMapRead (ParseServerURL w (Server (scmCfg s))) ::
      match gitlabServerAPIVersions s !! ParseServerURL w (Server (scmCfg s)) with
      | Some _ => []
      | None =>
          let s0 := after s (EvMapRead (ParseServerURL w (Server (scmCfg s)))) in
          new_events (detectAPIVersion w) s0
          ++ match (detectAPIVersion w s0).1 with
             | inr version =>
                 [EvMapWrite (ParseServerURL w (Server (scmCfg s))) version]
             | inl _ => []
             end
      end.
Proof.
  unfold new_events.
  destruct (gitlabServerAPIVersions s !! ParseServerURL w (Server (scmCfg s)))
    as [v|] eqn:Hlook.
  - rewrite (getAPIVersion_hit w s v Hlook). simpl. by rewrite drop_events.
  - rewrite (getAPIVersion_miss w s Hlook). cbv zeta.
    destruct (detectAPIVersion_keeps w
      (after s (EvMapRead (ParseServerURL w (Server (scmCfg s))))))
      as [_ (evs & Hevs & _)].
    destruct (detectAPIVersion w _) as [[err|version] s1]; simpl in *.
    + rewrite Hevs, drop_events, <- app_assoc, drop_events. simpl.
      by rewrite app_nil_r.
    + by rewrite Hevs, drop_events, <- !app_assoc, drop_events.
Qed.

Lemma getAPIVersion_config w s :
  scmCfg (getAPIVersion w s).2 =
    match gitlabServerAPIVersions s !! ParseServerURL w (Server (scmCfg s)) with
    | Some _ => scmCfg s
    | None =>
        scmCfg (detectAPIVersion w
                  (after s (EvMapRead (ParseServerURL w (Server (scmCfg s)))))).2
    end.
Proof.
  destruct (gitlabServerAPIVersions s !! ParseServerURL w (Server (scmCfg s)))
    as [v|] eqn:Hlook.
  - by rewrite (getAPIVersion_hit w s v Hlook).
  - rewrite (getAPIVersion_miss w s Hlook). cbv zeta.
    by destruct (detectAPIVersion w _) as [[err|version] s1].
Qed.




(** A config that carries a token: [NewGitlab] leaves the config as it is
    and sends no token request, whatever the cache holds and the world
    answers. *)
Theorem NewGitlab_token_given (w : World) (s : state) :
  Token (scmCfg s) ≠ "" →
  scmCfg (NewGitlab w s).2 = scmCfg s
  ∧ ∀ req, ¬ sent (NewGitlab w) s DefaultClient req.
Proof.
  intros Htoken. split.
  - destruct (NewGitlab_tail w s) as [-> _]. rewrite getAPIVersion_config.
    destruct (gitlabServerAPIVersions s !! _); [done|].
    rewrite detectAPIVersion_config. simpl. by rewrite decide_False.
  - intros req. unfold sent.
    destruct (NewGitlab_new_events w s) as (logs & Hlogs & ->).
    rewrite getAPIVersion_new_events. intros Hin.
    apply elem_of_app in Hin as [Hin|Hin]; [|by apply is_log_not_request in Hin].
    apply elem_of_cons in Hin as [[=]|Hin].
    destruct (gitlabServerAPIVersions s !! _); [by apply elem_of_nil in Hin|].
    cbv zeta in Hin. apply elem_of_app in Hin as [Hin|Hin].
    + destruct (detectAPIVersion_events w
        (after s (EvMapRead (ParseServerURL w (Server (scmCfg s))))))
        as (probeIO & Hev & Hprobe).
      rewrite Hev in Hin. simpl in Hin. rewrite decide_False in Hin by done.
      simpl in Hin. destruct Hprobe as [Hlogs' | (logs' & Hlogs' & ->)].
      * by apply is_log_not_request in Hin.
      * apply elem_of_cons in Hin as [[=]|Hin].
        by apply is_log_not_request in Hin.
    + destruct (detectAPIVersion w _).1; [by apply elem_of_nil in Hin|].
      by apply list_elem_of_singleton in Hin.
Qed.

(** The token is stored: for a config without a token, [detectAPIVersion]
    leaves the config as [getOauthToken] left it, with the token that was
    fetched written into it; this does not depend on the outcome of the
    probe that follows, and after a failed exchange the token stays empty. *)
Theorem detectAPIVersion_stores_token (w : World) (s s0 : state) (r : error + string) :
  Token (scmCfg s) = "" →
  getOauthToken w s = (r, s0) →
  scmCfg (detectAPIVersion w s).2 =
    match r with
    | inr token => withToken (scmCfg s0) token
    | inl _ => scmCfg s0
    end.
Proof.
  intros Htoken Hget. rewrite detectAPIVersion_config, decide_True by done.
  by rewrite Hget.
Qed.

(** The cache after [NewGitlab]. *)
Lemma NewGitlab_cache w s :
  gitlabServerAPIVersions (NewGitlab w s).2 =
    match gitlabServerAPIVersions s !! ParseServerURL w (Server (scmCfg s)),
          (getAPIVersion w s).1 with
    | None, inr version =>
        <[ParseServerURL w (Server (scmCfg s)) := version]> (gitlabServerAPIVersions s)
    | _, _ => gitlabServerAPIVersions s
    end.
Proof.
  destruct (NewGitlab_after_getAPIVersion w s) as [_ ->].
  destruct (gitlabServerAPIVersions s !! ParseServerURL w (Server (scmCfg s)))
    as [v|] eqn:Hlook.
  - by rewrite (getAPIVersion_hit w s v Hlook).
  - rewrite (getAPIVersion_miss w s Hlook). cbv zeta.
    pose proof (detectAPIVersion_cache w
      (after s (EvMapRead (ParseServerURL w (Server (scmCfg s)))))) as Hkeep.
    destruct (detectAPIVersion w _) as [[err|version] s1]; simpl in *; by rewrite Hkeep.
Qed.

(** A version that [getAPIVersion] returns is in the cache afterwards. *)
Lemma getAPIVersion_result_cached w s s1 version :
  getAPIVersion w s = (inr version, s1) →
  gitlabServerAPIVersions s1 !! ParseServerURL w (Server (scmCfg s)) = Some version.
Proof.
  intros Hget.
  destruct (gitlabServerAPIVersions s !! ParseServerURL w (Server (scmCfg s)))
    as [v|] eqn:Hlook.
  - rewrite (getAPIVersion_hit w s v Hlook) in Hget. by simplify_eq.
  - rewrite (getAPIVersion_miss w s Hlook) in Hget. cbv zeta in Hget.
    destruct (detectAPIVersion w _) as [[err|version'] s']; simplify_eq.
    simpl. by rewrite lookup_insert_eq.
Qed.

(** The cache only grows: [NewGitlab] removes and changes no entry, and
    entries of other servers than the one of the call are as before. *)
Theorem NewGitlab_cache_grows (w : World) (s : state) :
  gitlabServerAPIVersions s ⊆ gitlabServerAPIVersions (NewGitlab w s).2
  ∧ ∀ server, server ≠ ParseServerURL w (Server (scmCfg s)) →
      gitlabServerAPIVersions (NewGitlab w s).2 !! server
        = gitlabServerAPIVersions s !! server.
Proof.
  rewrite NewGitlab_cache.
  destruct (gitlabServerAPIVersions s !! ParseServerURL w (Server (scmCfg s)))
    as [v|] eqn:Hlook; [done|].
  destruct (getAPIVersion w s).1 as [err|version]; [done|]. split.
  - by apply insert_subseteq.
  - intros server Hne. by rewrite lookup_insert_ne.
Qed.

(** A resolved version is recorded: when [getAPIVersion] returns a version,
    the cache holds it for the server of the config once [NewGitlab] is done,
    whether the construction of the client succeeded or not. *)
Theorem NewGitlab_records_version (w : World) (s s1 : state) (version : string) :
  getAPIVersion w s = (inr version, s1) →
  gitlabServerAPIVersions (NewGitlab w s).2 !! ParseServerURL w (Server (scmCfg s))
    = Some version.
Proof.
  intros Hget. destruct (NewGitlab_after_getAPIVersion w s) as [_ ->].
  rewrite Hget. by eapply getAPIVersion_result_cached.
Qed.

(** A second call: after [getAPIVersion] returned a version, a later call
    for a server with the same identity, from any state whose cache has kept
    the entries, returns that version from the cache (one map read, nothing
    sent), whatever the world would answer now. *)
Theorem getAPIVersion_again (w w' : World) (s s1 s2 : state) (version : string) :
  getAPIVersion w s = (inr version, s1) →
  gitlabServerAPIVersions s1 ⊆ gitlabServerAPIVersions s2 →
  ParseServerURL w' (Server (scmCfg s2)) = ParseServerURL w (Server (scmCfg s)) →
  getAPIVersion w' s2
    = (inr version, after s2 (EvMapRead (ParseServerURL w' (Server (scmCfg s2))))).
Proof.
  intros Hget Hsub Hkey. apply getAPIVersion_hit. rewrite Hkey.
  eapply lookup_weaken; [|done]. by eapply getAPIVersion_result_cached.
Qed.

(** The provider of a successful [NewGitlab]: its generation is the version
    that the cache now holds for the server, its config is the config after
    the call, and its client has the token of that config, the base URL
    [<server>/api/<version>] and the authentication the user name selects
    (private token without a user name, OAuth with one). *)
Theorem NewGitlab_adapter (w : World) (s s' : state) (p : SCMProvider) :
  NewGitlab w s = (inr p, s') →
  ∃ version,
    gitlabServerAPIVersions s' !! ParseServerURL w (Server (scmCfg s)) = Some version
    ∧ let client :=
        mkClient (if decide (Username (scmCfg s') = "")
                  then PrivateTokenClient else OAuthClient)
                 (Token (scmCfg s'))
                 (Server (scmCfg s') +:+ "/api/" +:+ version) in
      (version = v3APIVersion ∧ p = GitlabV3 (scmCfg s') client)
      ∨ (version = v4APIVersion ∧ p = GitlabV4 (scmCfg s') client).
Proof.
  intros Hnew.
  destruct (getAPIVersion w s) as [[err|version] s1] eqn:Hget.
  - revert Hnew. unfold NewGitlab. run. by rewrite Hget.
  - exists version. split.
    + destruct (NewGitlab_after_getAPIVersion w s) as [_ Hmap].
      rewrite Hnew, Hget in Hmap. simpl in Hmap. rewrite Hmap.
      by eapply getAPIVersion_result_cached.
    + destruct (NewGitlab_tail w s) as [Hcfg _].
      rewrite Hnew, Hget in Hcfg. simpl in Hcfg. rewrite Hcfg. clear Hcfg.
      rewrite (auth_by_username (Username (scmCfg s1))).
      revert Hnew. unfold NewGitlab, newGitlabV3Client, newGitlabV4Client,
        newGitlabClient. run. rewrite Hget. simpl.
      destruct (decide (version = v3APIVersion)) as [->|]; simpl;
        [|destruct (decide (version = v4APIVersion)) as [->|]; simpl];
        try destruct (SetBaseURL_fails w _); simpl; intros; simplify_eq; auto.
Qed.

(** A failed token exchange ends [detectAPIVersion] with the error of the
    exchange, after one more log line. *)
Lemma detectAPIVersion_token_failure w s err s1 :
  Token (scmCfg s) = "" →
  getOauthToken w s = (inl err, s1) →
  detectAPIVersion w s = (inl err, after s1 (EvLog Error "%v" [AErr err])).
Proof.
  intros Htoken Hget. unfold detectAPIVersion. run.
  rewrite decide_True by done. simpl. by rewrite Hget.
Qed.

(** A failed token exchange ends [NewGitlab]: for a config without a token
    and a server that is not in the cache, the error of [getOauthToken] is
    the error of [NewGitlab], no probe is sent and the cache is as before. *)
Theorem NewGitlab_token_failure (w : World) (s s1 : state) (err : error) :
  gitlabServerAPIVersions s !! ParseServerURL w (Server (scmCfg s)) = None →
  Token (scmCfg s) = "" →
  getOauthToken w (after s (EvMapRead (ParseServerURL w (Server (scmCfg s)))))
    = (inl err, s1) →
  (NewGitlab w s).1 = inl err
  ∧ gitlabServerAPIVersions (NewGitlab w s).2 = gitlabServerAPIVersions s
  ∧ ∀ req, ¬ sent (NewGitlab w) s NoRedirectClient req.
Proof.
  intros Hmiss Htoken Hget.
  pose proof (detectAPIVersion_token_failure w
    (after s (EvMapRead (ParseServerURL w (Server (scmCfg s))))) err s1 Htoken Hget)
    as Hdet.
  pose proof (getAPIVersion_miss w s Hmiss) as Hver. cbv zeta in Hver.
  rewrite Hdet in Hver.
  destruct (getOauthToken_keeps_token_io w
    (after s (EvMapRead (ParseServerURL w (Server (scmCfg s))))))
    as [Hcache (evs & Hevs & Hall)].
  rewrite Hget in Hcache, Hevs. simpl in Hcache, Hevs.
  split; [|split].
  - unfold NewGitlab. run. by rewrite Hver.
  - destruct (NewGitlab_after_getAPIVersion w s) as [_ ->]. by rewrite Hver.
  - intros req. unfold sent.
    destruct (NewGitlab_new_events w s) as (logs & Hlogs & ->).
    unfold new_events at 1. rewrite Hver. simpl.
    rewrite Hevs, <- !app_assoc, drop_events. intros Hin.
    rewrite !elem_of_app in Hin. destruct Hin as [[Hin|[Hin|Hin]]|Hin].
    + by apply list_elem_of_singleton in Hin.
    + rewrite Forall_forall in Hall. by apply Hall in Hin.
    + by apply list_elem_of_singleton in Hin.
    + by apply is_log_not_request in Hin.
Qed.


(** ** The operation helpers *)

Section HelperProperties.

Context (w : World) {A : Type}.
Context (what segment : string) (initial : A) (decode : string → A * option string).
Context (version project : string).

(** The whole run, by the answers of the world to the one request. *)
Lemma getProjectResource_run (s : state) :
  getProjectResource w what segment initial decode version project s =
    let req := projectRequest (scmCfg s) version project segment in
    match url_Parse_error w (URL req) with
    | Some m => (inr (initial, Some (LibError http_NewRequest_error m)), s)
    | None =>
        match RoundTrip w DefaultClient req with
        | inl m =>
            (inr (initial, Some (LibError http_Do_error m)),
             mkState (scmCfg s) (gitlabServerAPIVersions s)
               (events s ++ [EvDo DefaultClient req;
                             EvLog Error ("Fail to get project " +:+ what +:+ " as %s")
                                   [AStr m]]))
        | inr resp =>
            match Body resp with
            | inl m =>
                (inr (initial, Some (LibError ioutil_ReadAll_error m)),
                 mkState (scmCfg s) (gitlabServerAPIVersions s)
                   (events s ++ [EvDo DefaultClient req;
                                 EvLog Error ("Fail to get project " +:+ what +:+ " as %s")
                                       [AStr m]]))
            | inr body =>
                (inr (if decide (200 ≤ StatusCode resp ≤ 299) then
                        match decode body with
                        | (value, Some m) => (value, Some (LibError json_Unmarshal_error m))
                        | (value, None) => (value, None)
                        end
                      else
                        (initial,
                         Some (Errorf ("Fail to get project " +:+ what +:+ " as " +:+ body)))),
                 after s (EvDo DefaultClient req))
            end
        end
    end.
Proof.
  unfold getProjectResource, http_NewRequest, Do, ReadAll, projectRequest, Header_Set.
  run. destruct (url_Parse_error w _) as [m|]; [done|]. simpl.
  rewrite <- (auth_by_username (Username (scmCfg s))).
  destruct (decide (Username (scmCfg s) = "")); simpl.
  all: destruct (RoundTrip w _ _) as [m|[code [m|body]]]; simpl; rewrite <- ?app_assoc;
    try done.
  all: destruct (code ÷ 100 =? 2) eqn:Hcode;
    [apply status_2xx in Hcode; rewrite decide_True by done; by destruct (decode body) as [? []]
    |rewrite decide_False; [done|];
     intros Hcode'; apply status_2xx in Hcode'; congruence].
Qed.

(** The helper changes neither the config nor the version map, and sends its
    one request unless the path does not parse. *)
Lemma getProjectResource_frame (s : state) :
  let req := projectRequest (scmCfg s) version project segment in
  let s' := (getProjectResource w what segment initial decode version project s).2 in
  scmCfg s' = scmCfg s
  ∧ gitlabServerAPIVersions s' = gitlabServerAPIVersions s
  ∧ requests (new_events (getProjectResource w what segment initial decode
                            version project) s)
    = match url_Parse_error w (URL req) with
      | Some _ => []
      | None => [(DefaultClient, req)]
      end.
Proof.
  unfold new_events. rewrite getProjectResource_run. cbv zeta.
  destruct (url_Parse_error w _) as [m|]; simpl.
  { by rewrite drop_events_nil. }
  destruct (RoundTrip w _ _) as [m|[code [m|body]]]; simpl;
    by rewrite drop_events.
Qed.

(** The table of results. *)
Lemma getProjectResource_outcome (s : state) :
  let req := projectRequest (scmCfg s) version project segment in
  ∃ value err,
    (getProjectResource w what segment initial decode version project s).1
      = inr (value, err)
    ∧ (err = None ↔
       ∃ resp body,
         url_Parse_error w (URL req) = None
         ∧ RoundTrip w DefaultClient req = inr resp
         ∧ Body resp = inr body
         ∧ 200 ≤ StatusCode resp ≤ 299
         ∧ decode body = (value, None))
    ∧ (∀ resp body,
         url_Parse_error w (URL req) = None →
         RoundTrip w DefaultClient req = inr resp →
         Body resp = inr body →
         ¬ 200 ≤ StatusCode resp ≤ 299 →
         err = Some (Errorf ("Fail to get project " +:+ what +:+ " as " +:+ body)))
    ∧ (err ≠ None →
       value = initial ∨ ∃ m, err = Some (LibError json_Unmarshal_error m)).
Proof.
  rewrite getProjectResource_run. cbv zeta.
  destruct (url_Parse_error w _) as [m|] eqn:Hurl; simpl.
  { eexists _, _. split; [done|]. split; [|split; [done|by left]].
    split; [done|]. by intros (? & ? & ? & _). }
  destruct (RoundTrip w _ _) as [m|[code [m|body]]] eqn:Hdo; simpl.
  - eexists _, _. split; [done|]. split; [|split; [done|by left]].
    split; [done|]. by intros (? & ? & _ & ? & _).
  - eexists _, _. split; [done|]. split; [|split; [|by left]].
    + split; [done|]. intros (? & ? & _ & ? & ? & _). by simplify_eq.
    + intros ? ? _ ? ?. by simplify_eq.
  - destruct (decide (200 ≤ code ≤ 299)) as [Hcode|Hcode].
    + destruct (decode body) as [value [m|]] eqn:Hdec.
      * eexists _, _. split; [done|]. split; [|split; [|right; by eexists]].
        -- split; [done|]. intros (? & ? & _ & ? & ? & _ & ?).
           simplify_eq. simpl in *. simplify_eq. congruence.
        -- intros ? ? _ ? ? ?. simplify_eq. simpl in *. done.
      * eexists _, _. split; [done|]. split; [|split; [|done]].
        -- split; [|done]. intros _. by eexists _, _.
        -- intros ? ? _ ? ? ?. simplify_eq. simpl in *. done.
    + eexists _, _. split; [done|]. split; [|split; [|by left]].
      * split; [done|]. intros (? & ? & _ & ? & ? & ? & _).
        simplify_eq. simpl in *. done.
      * intros ? ? _ ? ? _. simplify_eq. simpl in *. by simplify_eq.
Qed.

(** One trailing slash of the server does not show in the run. *)
Lemma getProjectResource_trailing_slash (s : state) :
  strings.HasSuffix (Server (scmCfg s)) "/" = false →
  let m := getProjectResource w what segment initial decode version project in
  let s' := mkState (withServer (scmCfg s) (Server (scmCfg s) +:+ "/"))
                    (gitlabServerAPIVersions s) (events s) in
  (m s').1 = (m s).1 ∧ events (m s').2 = events (m s).2.
Proof.
  intros Hslash. cbv zeta. rewrite !getProjectResource_run. cbv zeta.
  assert (projectRequest (withServer (scmCfg s) (Server (scmCfg s) +:+ "/"))
            version project segment
          = projectRequest (scmCfg s) version project segment) as Hreq.
  { unfold projectRequest. simpl. rewrite TrimSuffix_append.
    unfold strings.TrimSuffix. by rewrite Hslash. }
  cbn [scmCfg gitlabServerAPIVersions events]. rewrite Hreq.
  destruct (url_Parse_error w _) as [m|]; [done|].
  by destruct (RoundTrip w _ _) as [m|[code [m|body]]].
Qed.

End HelperProperties.

(** [getLanguages] changes neither the config nor the version cache, and
    it sends exactly one request, through the default client, unless the path
    does not parse, in which case it sends none: [GET
    <server without one trailing slash>/api/<version>/projects/<escaped
    project>/languages] with the token header the user name selects and the
    JSON content type. *)
Theorem getLanguages_request (w : World) (d : Decoders) (version project : string)
    (s : state) :
  let req := projectRequest (scmCfg s) version project "/languages" in
  let s' := (getLanguages w d version project s).2 in
  scmCfg s' = scmCfg s
  ∧ gitlabServerAPIVersions s' = gitlabServerAPIVersions s
  ∧ requests (new_events (getLanguages w d version project) s)
    = match url_Parse_error w (URL req) with
      | Some _ => []
      | None => [(DefaultClient, req)]
      end.
Proof. apply getProjectResource_frame. Qed.

(** The results of [getLanguages]: it always returns a mapping and an
    error value; the error is nil exactly when the request was answered with
    a readable body and a status from 200 to 299 that decodes without error,
    and the mapping is then the decoded one; another status gives an error
    that carries the body; and with every error other than a decoding error
    the mapping is empty. *)
Theorem getLanguages_outcome (w : World) (d : Decoders) (version project : string)
    (s : state) :
  let req := projectRequest (scmCfg s) version project "/languages" in
  ∃ languages err,
    (getLanguages w d version project s).1 = inr (languages, err)
    ∧ (err = None ↔
       ∃ resp body,
         url_Parse_error w (URL req) = None
         ∧ RoundTrip w DefaultClient req = inr resp
         ∧ Body resp = inr body
         ∧ 200 ≤ StatusCode resp ≤ 299
         ∧ json_Unmarshal_languages d body = (languages, None))
    ∧ (∀ resp body,
         url_Parse_error w (URL req) = None →
         RoundTrip w DefaultClient req = inr resp →
         Body resp = inr body →
         ¬ 200 ≤ StatusCode resp ≤ 299 →
         err = Some (Errorf ("Fail to get project languages as " +:+ body)))
    ∧ (err ≠ None →
       languages = ∅ ∨ ∃ m, err = Some (LibError json_Unmarshal_error m)).
Proof. apply (getProjectResource_outcome w "languages" "/languages"). Qed.

(** [getContents] changes neither the config nor the version cache, and it
    sends exactly one request, through the default client, unless the path
    does not parse, in which case it sends none: [GET
    <server without one trailing slash>/api/<version>/projects/<escaped
    project>/repository/tree] with the token header the user name selects and
    the JSON content type. *)
Theorem getContents_request (w : World) (d : Decoders) (version project : string)
    (s : state) :
  let req := projectRequest (scmCfg s) version project "/repository/tree" in
  let s' := (getContents w d version project s).2 in
  scmCfg s' = scmCfg s
  ∧ gitlabServerAPIVersions s' = gitlabServerAPIVersions s
  ∧ requests (new_events (getContents w d version project) s)
    = match url_Parse_error w (URL req) with
      | Some _ => []
      | None => [(DefaultClient, req)]
      end.
Proof. apply getProjectResource_frame. Qed.

(** The results of [getContents]: it always returns a list of files and an
    error value; the error is nil exactly when the request was answered with
    a readable body and a status from 200 to 299 that decodes without error,
    and the list is then the decoded one; another status gives an error that
    carries the body; and with every error other than a decoding error the
    list is nil. *)
Theorem getContents_outcome (w : World) (d : Decoders) (version project : string)
    (s : state) :
  let req := projectRequest (scmCfg s) version project "/repository/tree" in
  ∃ files err,
    (getContents w d version project s).1 = inr (files, err)
    ∧ (err = None ↔
       ∃ resp body,
         url_Parse_error w (URL req) = None
         ∧ RoundTrip w DefaultClient req = inr resp
         ∧ Body resp = inr body
         ∧ 200 ≤ StatusCode resp ≤ 299
         ∧ json_Unmarshal_RepoFiles d body = (files, None))
    ∧ (∀ resp body,
         url_Parse_error w (URL req) = None →
         RoundTrip w DefaultClient req = inr resp →
         Body resp = inr body →
         ¬ 200 ≤ StatusCode resp ≤ 299 →
         err = Some (Errorf ("Fail to get project contents as " +:+ body)))
    ∧ (err ≠ None →
       files = [] ∨ ∃ m, err = Some (LibError json_Unmarshal_error m)).
Proof. apply (getProjectResource_outcome w "contents" "/repository/tree"). Qed.

(** One trailing slash of the server address does not matter to
    [getLanguages] and [getContents]: for a server without a trailing slash,
    the calls with the address followed by a slash return what the calls with
    the address itself return, with the same trace. *)
Theorem helpers_trailing_slash (w : World) (d : Decoders) (version project : string)
    (s : state) :
  strings.HasSuffix (Server (scmCfg s)) "/" = false →
  let s' := mkState (withServer (scmCfg s) (Server (scmCfg s) +:+ "/"))
                    (gitlabServerAPIVersions s) (events s) in
  ((getLanguages w d version project s').1 = (getLanguages w d version project s).1
   ∧ events (getLanguages w d version project s').2
     = events (getLanguages w d version project s).2)
  ∧ ((getContents w d version project s').1 = (getContents w d version project s).1
     ∧ events (getContents w d version project s').2
       = events (getContents w d version project s).2).
Proof.
  intros Hslash. split; by apply getProjectResource_trailing_slash.
Qed.

(** The project is escaped: in the URL of a request of [getLanguages] or
    [getContents] the project stands between [/projects/] and the last
    segment as [url.QueryEscape] gives it, made of unreserved characters,
    percent signs and plus signs only; a slash of the project never reaches
    the path. *)
Theorem helpers_project_escaped (w : World) (d : Decoders) (version project : string)
    (s : state) (c : httpClient) (req : Request) :
  sent (getLanguages w d version project) s c req
  ∨ sent (getContents w d version project) s c req →
  ∃ segment,
    (segment = "/languages" ∨ segment = "/repository/tree")
    ∧ URL req = strings.TrimSuffix (Server (scmCfg s)) "/" +:+ "/api/" +:+ version
                +:+ "/projects/" +:+ url.QueryEscape project +:+ segment
    ∧ Forall escaped (list_ascii_of_string (url.QueryEscape project))
    ∧ "/"%char ∉ list_ascii_of_string (url.QueryEscape project).
Proof.
  intros Hsent.
  assert (∃ segment, (segment = "/languages" ∨ segment = "/repository/tree")
            ∧ req = projectRequest (scmCfg s) version project segment)
    as (segment & Hseg & ->).
  { assert (∀ evs, EvDo c req ∈ evs → (c, req) ∈ requests evs) as Hreq.
    { intros evs Hin. apply list_elem_of_omap. by exists (EvDo c req). }
    destruct Hsent as [Hsent|Hsent];
      unfold sent, getLanguages, getContents in Hsent; apply Hreq in Hsent.
    - destruct (getProjectResource_frame w "languages" "/languages" ∅
                  (json_Unmarshal_languages d) version project s) as (_ & _ & Hev).
      rewrite Hev in Hsent. exists "/languages". split; [by left|].
      destruct (url_Parse_error w _); [by apply elem_of_nil in Hsent|].
      apply list_elem_of_singleton in Hsent. by simplify_eq.
    - destruct (getProjectResource_frame w "contents" "/repository/tree" []
                  (json_Unmarshal_RepoFiles d) version project s) as (_ & _ & Hev).
      rewrite Hev in Hsent. exists "/repository/tree". split; [by right|].
      destruct (url_Parse_error w _); [by apply elem_of_nil in Hsent|].
      apply list_elem_of_singleton in Hsent. by simplify_eq. }
  exists segment. split; [done|]. split; [done|].
  pose proof (QueryEscape_escaped project) as Hesc. split; [done|].
  intros Hin. rewrite Forall_forall in Hesc. by apply Hesc, escaped_not_slash in Hin.
Qed.

(** ** float32 order *)

Lemma gt32_trans (a b c : float32) :
  gt32 a b = true → gt32 b c = true → gt32 a c = true.
Proof.
  unfold gt32, SFltb, SFcompare.
  destruct a as [sa|sa| |sa ma ea], b as [sb|sb| |sb mb eb], c as [sc|sc| |sc mc ec];
    simpl; try done;
    repeat match goal with s : bool |- _ => destruct s end; simpl; try done.
  all: change (Pos.compare_cont Eq ?x ?y) with (Pos.compare x y).
  all: destruct (Z.compare_spec eb ea), (Z.compare_spec ec eb), (Z.compare_spec ec ea);
    simpl; try done; try lia.
  all: destruct (Pos.compare_spec mb ma), (Pos.compare_spec mc mb),
    (Pos.compare_spec mc ma); simpl; try done; try lia.
Qed.

Lemma gt32_irrefl (a : float32) : gt32 a a = false.
Proof.
  destruct (gt32 a a) eqn:Hgt; [|done]. by rewrite (gt32_asym a a Hgt) in Hgt.
Qed.

(** What the loop ends with: its initial state, or an entry above the initial
    maximum; no entry is above the final maximum. *)
Lemma getTopLanguage_invariant (l : list (string * float32)) (acc : string * float32) :
  let result := fold_left getTopLanguage_step l acc in
  (result = acc ∨ (result ∈ l ∧ gt32 result.2 acc.2 = true))
  ∧ ∀ k v, (k, v) ∈ l → gt32 v result.2 = false.
Proof.
  revert acc. induction l as [|[k v] l IH]; intros [language max]; simpl.
  { split; [by left|]. intros k v Hin. by apply elem_of_nil in Hin. }
  destruct (gt32 v max) eqn:Hgt.
  - destruct (IH (k, v)) as [Hres Hle]. simpl in *. split.
    + right. destruct Hres as [-> | [Hin Hgt']]; simpl.
      * split; [apply list_elem_of_here|done].
      * split; [by apply list_elem_of_further|by eapply gt32_trans].
    + intros k' v' Hin. apply elem_of_cons in Hin as [[= -> ->] | Hin]; [|by eapply Hle].
      destruct Hres as [Hres | [_ Hgt']]; [rewrite Hres; apply gt32_irrefl|].
      by apply gt32_asym.
  - destruct (IH (language, max)) as [Hres Hle]. simpl in *. split.
    + destruct Hres as [-> | [Hin Hgt']]; [by left|right].
      split; [by apply list_elem_of_further|done].
    + intros k' v' Hin. apply elem_of_cons in Hin as [[= -> ->] | Hin]; [|by eapply Hle].
      destruct Hres as [Hres | [_ Hgt']]; [by rewrite Hres|].
      destruct (gt32 v (fold_left getTopLanguage_step l (language, max)).2) eqn:Hv;
        [|done].
      by rewrite (gt32_trans _ _ _ Hv Hgt') in Hgt.
Qed.

(** What [getTopLanguage] returns, in whatever order the map is visited:
    the empty string, and then no value of the mapping is greater than zero;
    or a key of the mapping whose value is greater than zero and that no
    value of the mapping is greater than. *)
Theorem getTopLanguage_sound (m : gmap string float32) (order : list (string * float32)) :
  range_of m order →
  (getTopLanguage order = ""
   ∧ ∀ k v, m !! k = Some v → gt32 v float32_zero = false)
  ∨ ∃ v, m !! getTopLanguage order = Some v
      ∧ gt32 v float32_zero = true
      ∧ ∀ k' v', m !! k' = Some v' → gt32 v' v = false.
Proof.
  intros Horder. unfold getTopLanguage.
  destruct (getTopLanguage_invariant order ("", float32_zero)) as [Hres Hle].
  simpl in *.
  destruct (fold_left getTopLanguage_step order ("", float32_zero))
    as [language max] eqn:Hfold. simpl in *.
  destruct Hres as [[= -> ->] | [Hin Hgt]].
  - left. split; [done|]. intros k v Hlook. apply (Hle k).
    by apply (range_of_lookup m order).
  - right. exists max. split; [by apply (range_of_lookup m order)|].
    split; [done|]. intros k' v' Hlook. apply (Hle k').
    by apply (range_of_lookup m order).
Qed.

(** [transStatus] on the two remaining constants, when the four are
    different: [api.Failed] gives "failed" and [api.Aborted] gives
    "canceled", both with the description of a failed build, and nothing is
    logged. *)
Theorem transStatus_failed_aborted {Status : Type} `{EqDecision Status}
    (Running Success Failed Aborted : Status) :
  Failed ≠ Running → Failed ≠ Success →
  Aborted ≠ Running → Aborted ≠ Success → Aborted ≠ Failed →
  transStatus Running Success Failed Aborted Failed
    = (("failed", "The Cyclone CI build failed."), [])
  ∧ transStatus Running Success Failed Aborted Aborted
    = (("canceled", "The Cyclone CI build failed."), []).
Proof.
  intros. unfold transStatus. split; by repeat case_decide.
Qed.

(** The states of [transStatus]: the state is one of the five strings; it
    is "pending" exactly for a status that is none of the four constants; a
    line is logged exactly then; and the description is empty exactly
    then. *)
Theorem transStatus_states {Status : Type} `{EqDecision Status}
    (Running Success Failed Aborted recordStatus : Status) :
  let r := transStatus Running Success Failed Aborted recordStatus in
  r.1.1 ∈ ["running"; "success"; "failed"; "canceled"; "pending"]
  ∧ (r.1.1 = "pending" ↔ recordStatus ∉ [Running; Success; Failed; Aborted])
  ∧ (r.2 = [] ↔ recordStatus ∈ [Running; Success; Failed; Aborted])
  ∧ (r.1.2 = "" ↔ r.1.1 = "pending").
Proof.
  cbv zeta. unfold transStatus.
  repeat case_decide; simpl; rewrite ?not_elem_of_cons, ?elem_of_cons, ?elem_of_nil;
    repeat split; intros; try done; try tauto.
Qed.

(** [AddFlags] appends: the flags the app had stay in front, in order, and
    seven flags follow; the flag names are without duplicate afterwards
    exactly when they were before and no flag of the app has one of the
    seven names; after a second call they never are. *)
Theorem AddFlags_names (appFlags : list server.Flag) :
  appFlags `prefix_of` server.AddFlags appFlags
  ∧ length (server.AddFlags appFlags) = (length appFlags + 7)%nat
  ∧ (NoDup (server.flagName <$> server.AddFlags appFlags) ↔
     NoDup (server.flagName <$> appFlags)
     ∧ ∀ f, f ∈ appFlags →
         server.flagName f ∉ server.flagName <$> server.AddFlags [])
  ∧ ¬ NoDup (server.flagName <$> server.AddFlags (server.AddFlags appFlags)).
Proof.
  unfold server.AddFlags. split; [by eexists|].
  split; [by rewrite length_app|]. split.
  - rewrite fmap_app, NoDup_app. split.
    + intros (Hnd & Hdisj & _). split; [done|].
      intros f Hin. apply Hdisj, list_elem_of_fmap. by exists f.
    + intros [Hnd Hdisj]. split; [done|]. split.
      * intros name (f & -> & Hin)%list_elem_of_fmap. by apply Hdisj.
      * apply (bool_decide_unpack _). by vm_compute.
  - rewrite <- app_assoc, fmap_app, NoDup_app. intros (_ & _ & Hnd).
    revert Hnd. apply (bool_decide_unpack (¬ _)). by vm_compute.
Qed.

(** The flags and the defaults do not overlap: a flag that [AddFlags] adds
    writes to a field that [NewAPIServerOptions] leaves at its zero value, so
    none of them writes to the grace period, the port or the address
    template. *)
Theorem AddFlags_destinations (appFlags : list server.Flag) (f : server.Flag) :
  f ∈ server.AddFlags appFlags →
  f ∈ appFlags
  ∨ options.isZero server.NewAPIServerOptions (server.flagDestination f) = true.
Proof.
  unfold server.AddFlags. rewrite elem_of_app. intros [Hin|Hin]; [by left|right].
  repeat (apply elem_of_cons in Hin as [->|Hin]; [done|]).
  by apply elem_of_nil in Hin.
Qed.

(** * Concrete runs *)

(** The probe table on stubbed answers. *)
Example probe_404 :
  (detectAPIVersion (stub.world stub.refused (stub.ok 404 ""))
                    (stub.fresh stub.withPrivateToken)).1 = inr "v3".
Proof. reflexivity. Qed.

Example probe_302 :
  (detectAPIVersion (stub.world stub.refused (stub.ok 302 ""))
                    (stub.fresh stub.withPrivateToken)).1 = inr "v3".
Proof. reflexivity. Qed.

Example probe_500 :
  (detectAPIVersion (stub.world stub.refused (stub.ok 500 "oops"))
                    (stub.fresh stub.withPrivateToken)).1 = inr "v3".
Proof. reflexivity. Qed.

Example probe_200_undecodable :
  (detectAPIVersion (stub.world stub.refused (stub.ok 200 "<html>"))
                    (stub.fresh stub.withPrivateToken)).1
  = inl (LibError json_Unmarshal_error "invalid character").
Proof. reflexivity. Qed.

Example probe_refused :
  (getAPIVersion (stub.world stub.refused stub.refused)
                 (stub.fresh stub.withPrivateToken)).1
  = inl (LibError http_Do_error "connection refused")
  ∧ gitlabServerAPIVersions
      (getAPIVersion (stub.world stub.refused stub.refused)
                     (stub.fresh stub.withPrivateToken)).2 = ∅.
Proof. split; reflexivity. Qed.

(** A second [NewGitlab] for the same server sends nothing. *)
Example NewGitlab_twice :
  let w := stub.world stub.refused (stub.ok 200 "{}") in
  let s1 := (NewGitlab w (stub.fresh stub.withPrivateToken)).2 in
  gitlabServerAPIVersions s1 !! "gitlab.example.com" = Some "v4"
  ∧ requests (events (NewGitlab w s1).2) = requests (events s1).
Proof. split; reflexivity. Qed.

(** Token exchange answered with a 401. *)
Example token_401 :
  (getOauthToken (stub.world (stub.ok 401 "denied") stub.refused)
                 (stub.fresh (stub.withPassword "https://gitlab.example.com"))).1
  = inl (Errorf "Fail to request for token as denied").
Proof. reflexivity. Qed.

Lemma detectAPIVersion_classification_witness :
  sent (detectAPIVersion (stub.world stub.refused (stub.ok 200 "{}")))
       (stub.fresh stub.withPrivateToken) NoRedirectClient stub.probe
  ∧ (detectAPIVersion (stub.world stub.refused (stub.ok 200 "{}"))
                      (stub.fresh stub.withPrivateToken)).1 = inr "v4".
Proof.
  assert (sent (detectAPIVersion (stub.world stub.refused (stub.ok 200 "{}")))
               (stub.fresh stub.withPrivateToken) NoRedirectClient stub.probe)
    as Hsent by (vm_compute; apply list_elem_of_here).
  split; [exact Hsent|].
  destruct (detectAPIVersion_classification _ _ _ Hsent) as (H200 & _).
  apply (H200 "{}" (mkVersionResponse "11.0.0" "")); reflexivity.
Defined.

Lemma getAPIVersion_cache_witness :
  getAPIVersion (stub.world stub.refused stub.refused)
                (mkState stub.withPrivateToken {[ "gitlab.example.com" := "v4" ]} [])
  = (inr "v4",
     mkState stub.withPrivateToken {[ "gitlab.example.com" := "v4" ]}
             [EvMapRead "gitlab.example.com"]).
Proof.
  destruct (getAPIVersion_cache (stub.world stub.refused stub.refused)
    (mkState stub.withPrivateToken {[ "gitlab.example.com" := "v4" ]} []))
    as [Hhit _].
  apply (Hhit "v4"). reflexivity.
Defined.

Lemma getOauthToken_exchange_witness :
  sent (getOauthToken (stub.world (stub.ok 200 stub.tokenBody) stub.refused))
       (stub.fresh (stub.withPassword "https://gitlab.example.com"))
       DefaultClient stub.tokenRequest
  ∧ (getOauthToken (stub.world (stub.ok 200 stub.tokenBody) stub.refused)
                   (stub.fresh (stub.withPassword "https://gitlab.example.com"))).1
    = inr "T".
Proof.
  assert (sent (getOauthToken (stub.world (stub.ok 200 stub.tokenBody) stub.refused))
               (stub.fresh (stub.withPassword "https://gitlab.example.com"))
               DefaultClient stub.tokenRequest)
    as Hsent by (vm_compute; apply list_elem_of_here).
  split; [exact Hsent|].
  destruct (getOauthToken_exchange _ _ _ 200 stub.tokenBody Hsent eq_refl) as (H2xx & _).
  apply (H2xx (mkToken "T" "bearer" "")); [lia | reflexivity].
Defined.

Lemma getOauthToken_missing_credentials_witness :
  getOauthToken (stub.world stub.refused stub.refused)
                (stub.fresh (stub.withNothing "https://gitlab.example.com"))
  = (inl missingCredentials, stub.fresh (stub.withNothing "https://gitlab.example.com")).
Proof.
  apply (getOauthToken_missing_credentials (stub.world stub.refused stub.refused)
           (stub.fresh (stub.withNothing "https://gitlab.example.com"))).
  left. reflexivity.
Defined.



(** The test of the code is on the text of the address: an http address that
    merely contains [gitlab.com] is sent to the public endpoint as well. *)
Example getOauthToken_rewrites_other_host :
  address.host "http://gitlab.company.com" = "gitlab.company.com"
  ∧ Server (scmCfg (getOauthToken (stub.world stub.refused stub.refused)
                      (stub.fresh (stub.withPassword "http://gitlab.company.com"))).2)
    = "https://gitlab.com".
Proof. split; reflexivity. Qed.


(** C4, as the specification has it, fails: the call below reads and writes
    the map with no lock held, and it races with a second call for another
    server. *)
Lemma getAPIVersion_not_mutex_protected :
  ¬ mutex_protected
      (new_events (getAPIVersion (stub.world stub.refused (stub.ok 404 "")))
                  (stub.fresh stub.withPrivateToken))
  ∧ data_race
      (new_events (getAPIVersion (stub.world stub.refused (stub.ok 404 "")))
                  (stub.fresh stub.withPrivateToken))
      (new_events (getAPIVersion (stub.world stub.refused (stub.ok 200 "{}")))
                  (stub.fresh (mkSCMConfig "https://git.example.org" "" "" "other"))).
Proof.
  split.
  - unfold mutex_protected. vm_compute. discriminate.
  - by apply (getAPIVersion_data_race _ _ _ _ "v3").
Qed.

Lemma transStatus_mapping_witness :
  (transStatus "Running" "Success" "Failed" "Aborted" "Success").1
  = ("success", "The Cyclone CI build passed.").
Proof.
  apply (transStatus_mapping "Running" "Success" "Failed" "Aborted").
  discriminate.
Defined.

(** ** Language mappings *)

Lemma range_of_two (k1 k2 : string) (v1 v2 : float32) :
  k1 ≠ k2 →
  range_of {[ k1 := v1; k2 := v2 ]} [(k1, v1); (k2, v2)]
  ∧ range_of {[ k1 := v1; k2 := v2 ]} [(k2, v2); (k1, v1)].
Proof.
  intros Hne.
  assert (range_of {[ k1 := v1; k2 := v2 ]} [(k1, v1); (k2, v2)]) as Hr.
  { unfold range_of. rewrite map_to_list_insert by by apply lookup_singleton_ne.
    by rewrite map_to_list_singleton. }
  split; [done|]. unfold range_of in *. rewrite <- Hr. apply perm_swap.
Qed.

Lemma lookup_two (k1 k2 k : string) (v1 v2 v : float32) :
  ({[ k1 := v1; k2 := v2 ]} : gmap string float32) !! k = Some v →
  (k = k1 ∧ v = v1) ∨ (k = k2 ∧ v = v2).
Proof.
  rewrite lookup_insert_Some, lookup_singleton_Some.
  intros [[<- <-] | [_ [<- <-]]]; auto.
Qed.

Lemma getTopLanguage_strict_max_witness :
  getTopLanguage [("Python", float32_of_Z 20); ("Go", float32_of_Z 80)] = "Go".
Proof.
  apply (getTopLanguage_strict_max languages.Go_Python
           [("Python", float32_of_Z 20); ("Go", float32_of_Z 80)]
           "Go" (float32_of_Z 80)).
  - apply range_of_two. discriminate.
  - reflexivity.
  - reflexivity.
  - intros k' v' Hlook Hne.
    apply lookup_two in Hlook as [[-> ->] | [-> ->]]; [done | reflexivity].
Defined.

(** C8, as the specification has it, fails: "Go" has the strictly greatest
    value of this mapping, and [getTopLanguage] returns the empty string. *)
Lemma getTopLanguage_strict_max_not_positive :
  range_of languages.nonpositive [("Go", float32_zero); ("Python", float32_of_Z (-20))]
  ∧ languages.nonpositive !! "Go" = Some float32_zero
  ∧ (∀ k' v', languages.nonpositive !! k' = Some v' → k' ≠ "Go" →
       gt32 float32_zero v' = true)
  ∧ getTopLanguage [("Go", float32_zero); ("Python", float32_of_Z (-20))] ≠ "Go".
Proof.
  split; [apply range_of_two; discriminate|].
  split; [reflexivity|]. split.
  - intros k' v' Hlook Hne.
    apply lookup_two in Hlook as [[-> ->] | [-> ->]]; [done | reflexivity].
  - discriminate.
Qed.

Lemma getTopLanguage_nonpositive_witness :
  getTopLanguage [("Go", float32_zero); ("Python", float32_of_Z (-20))] = "".
Proof.
  apply (getTopLanguage_nonpositive languages.nonpositive).
  - apply range_of_two. discriminate.
  - intros k v Hlook.
    apply lookup_two in Hlook as [[-> ->] | [-> ->]]; reflexivity.
Defined.

(** ** Runs of the other properties *)

Lemma detectAPIVersion_probe_request_witness :
  stub.probe
  = versionRequest
      (scmCfg (detectAPIVersion (stub.world stub.refused (stub.ok 200 "{}"))
                                (stub.fresh stub.withPrivateToken)).2).
Proof.
  apply (detectAPIVersion_probe_request (stub.world stub.refused (stub.ok 200 "{}"))
           (stub.fresh stub.withPrivateToken)).
  vm_compute. apply list_elem_of_here.
Defined.

Lemma getOauthToken_token_request_witness :
  ∃ bodyBytes,
    stub.tokenRequest
    = oauthTokenRequest
        (scmCfg (getOauthToken (stub.world (stub.ok 200 stub.tokenBody) stub.refused)
                   (stub.fresh (stub.withPassword "https://gitlab.example.com"))).2)
        bodyBytes.
Proof.
  assert (sent (getOauthToken (stub.world (stub.ok 200 stub.tokenBody) stub.refused))
               (stub.fresh (stub.withPassword "https://gitlab.example.com"))
               DefaultClient stub.tokenRequest)
    as Hsent by (vm_compute; apply list_elem_of_here).
  destruct (getOauthToken_token_request _ _ _ Hsent) as (_ & _ & bodyBytes & _ & Hreq).
  by exists bodyBytes.
Defined.

Lemma NewGitlab_token_given_witness :
  scmCfg (NewGitlab (stub.world stub.refused (stub.ok 404 ""))
                    (stub.fresh stub.withPrivateToken)).2
  = stub.withPrivateToken.
Proof.
  apply (NewGitlab_token_given (stub.world stub.refused (stub.ok 404 ""))
           (stub.fresh stub.withPrivateToken)).
  discriminate.
Defined.

Lemma detectAPIVersion_stores_token_witness :
  scmCfg (detectAPIVersion (stub.world (stub.ok 200 stub.tokenBody) (stub.ok 500 "oops"))
            (stub.fresh (stub.withPassword "https://gitlab.example.com"))).2
  = withToken (stub.withPassword "https://gitlab.example.com") "T".
Proof.
  rewrite (detectAPIVersion_stores_token
             (stub.world (stub.ok 200 stub.tokenBody) (stub.ok 500 "oops"))
             (stub.fresh (stub.withPassword "https://gitlab.example.com"))
             _ _ eq_refl (surjective_pairing _)).
  reflexivity.
Defined.

Lemma NewGitlab_token_failure_witness :
  (NewGitlab (stub.world (stub.ok 401 "denied") (stub.ok 200 "{}"))
             (stub.fresh (stub.withPassword "https://gitlab.example.com"))).1
  = inl (Errorf "Fail to request for token as denied").
Proof.
  apply (NewGitlab_token_failure (stub.world (stub.ok 401 "denied") (stub.ok 200 "{}"))
           (stub.fresh (stub.withPassword "https://gitlab.example.com"))
           (getOauthToken (stub.world (stub.ok 401 "denied") (stub.ok 200 "{}"))
              (after (stub.fresh (stub.withPassword "https://gitlab.example.com"))
                     (EvMapRead "gitlab.example.com"))).2);
    reflexivity.
Defined.

Lemma NewGitlab_records_version_witness :
  (NewGitlab (fixtures.brokenBaseURL (stub.ok 200 "{}"))
             (stub.fresh stub.withPrivateToken)).1
  = inl (LibError SetBaseURL_error "invalid URI for request")
  ∧ gitlabServerAPIVersions
      (NewGitlab (fixtures.brokenBaseURL (stub.ok 200 "{}"))
                 (stub.fresh stub.withPrivateToken)).2 !! "gitlab.example.com"
    = Some "v4".
Proof.
  split; [reflexivity|].
  apply (NewGitlab_records_version (fixtures.brokenBaseURL (stub.ok 200 "{}"))
           (stub.fresh stub.withPrivateToken)
           (getAPIVersion (fixtures.brokenBaseURL (stub.ok 200 "{}"))
                          (stub.fresh stub.withPrivateToken)).2).
  reflexivity.
Defined.

Lemma getAPIVersion_again_witness :
  getAPIVersion (stub.world stub.refused stub.refused)
    (getAPIVersion (stub.world stub.refused (stub.ok 200 "{}"))
                   (stub.fresh stub.withPrivateToken)).2
  = (inr "v4",
     after (getAPIVersion (stub.world stub.refused (stub.ok 200 "{}"))
                          (stub.fresh stub.withPrivateToken)).2
           (EvMapRead "gitlab.example.com")).
Proof.
  apply (getAPIVersion_again (stub.world stub.refused (stub.ok 200 "{}"))
           (stub.world stub.refused stub.refused)
           (stub.fresh stub.withPrivateToken)
           (getAPIVersion (stub.world stub.refused (stub.ok 200 "{}"))
                          (stub.fresh stub.withPrivateToken)).2).
  - reflexivity.
  - reflexivity.
  - reflexivity.
Defined.

Lemma NewGitlab_adapter_witness :
  ∃ version,
    gitlabServerAPIVersions
      (NewGitlab (stub.world stub.refused (stub.ok 200 "{}"))
                 (stub.fresh stub.withPrivateToken)).2 !! "gitlab.example.com"
    = Some version
    ∧ ((version = v3APIVersion
        ∧ GitlabV4 stub.withPrivateToken
            (mkClient PrivateTokenClient "secret" "https://gitlab.example.com/api/v4")
          = GitlabV3 stub.withPrivateToken
              (mkClient PrivateTokenClient "secret"
                        ("https://gitlab.example.com" +:+ "/api/" +:+ version)))
       ∨ (version = v4APIVersion
          ∧ GitlabV4 stub.withPrivateToken
              (mkClient PrivateTokenClient "secret" "https://gitlab.example.com/api/v4")
            = GitlabV4 stub.withPrivateToken
                (mkClient PrivateTokenClient "secret"
                          ("https://gitlab.example.com" +:+ "/api/" +:+ version)))).
Proof.
  apply (NewGitlab_adapter (stub.world stub.refused (stub.ok 200 "{}"))
           (stub.fresh stub.withPrivateToken)
           (NewGitlab (stub.world stub.refused (stub.ok 200 "{}"))
                      (stub.fresh stub.withPrivateToken)).2
           (GitlabV4 stub.withPrivateToken
              (mkClient PrivateTokenClient "secret" "https://gitlab.example.com/api/v4"))).
  reflexivity.
Defined.

Lemma helpers_trailing_slash_witness :
  (getLanguages (stub.world (stub.ok 200 "{}") stub.refused) fixtures.decoders
     "v4" "group/project"
     (stub.fresh (withServer stub.withPrivateToken "https://gitlab.example.com/"))).1
  = (getLanguages (stub.world (stub.ok 200 "{}") stub.refused) fixtures.decoders
       "v4" "group/project" (stub.fresh stub.withPrivateToken)).1.
Proof.
  apply (helpers_trailing_slash (stub.world (stub.ok 200 "{}") stub.refused)
           fixtures.decoders "v4" "group/project" (stub.fresh stub.withPrivateToken)).
  reflexivity.
Defined.

Lemma helpers_project_escaped_witness :
  ∃ segment,
    (segment = "/languages" ∨ segment = "/repository/tree")
    ∧ URL fixtures.treeRequest
      = strings.TrimSuffix "https://gitlab.example.com" "/" +:+ "/api/" +:+ "v4"
        +:+ "/projects/" +:+ url.QueryEscape "group/project" +:+ segment
    ∧ Forall escaped (list_ascii_of_string (url.QueryEscape "group/project"))
    ∧ "/"%char ∉ list_ascii_of_string (url.QueryEscape "group/project").
Proof.
  apply (helpers_project_escaped (stub.world (stub.ok 200 "[]") stub.refused)
           fixtures.decoders "v4" "group/project" (stub.fresh stub.withPrivateToken)
           DefaultClient fixtures.treeRequest).
  right. vm_compute. apply list_elem_of_here.
Defined.

Lemma getTopLanguage_sound_witness :
  (getTopLanguage [("Python", float32_of_Z 20); ("Go", float32_of_Z 80)] = ""
   ∧ ∀ k v, languages.Go_Python !! k = Some v → gt32 v float32_zero = false)
  ∨ ∃ v, languages.Go_Python
           !! getTopLanguage [("Python", float32_of_Z 20); ("Go", float32_of_Z 80)]
         = Some v
      ∧ gt32 v float32_zero = true
      ∧ ∀ k' v', languages.Go_Python !! k' = Some v' → gt32 v' v = false.
Proof.
  apply (getTopLanguage_sound languages.Go_Python
           [("Python", float32_of_Z 20); ("Go", float32_of_Z 80)]).
  apply range_of_two. discriminate.
Defined.

Lemma transStatus_failed_aborted_witness :
  transStatus "Running" "Success" "Failed" "Aborted" "Aborted"
  = (("canceled", "The Cyclone CI build failed."), []).
Proof.
  apply (transStatus_failed_aborted "Running" "Success" "Failed" "Aborted");
    discriminate.
Defined.

Lemma AddFlags_destinations_witness :
  server.IntFlag "record-rotation-threshold" "pipeline record rotation threshold"
                 server.RecordRotationThreshold_env server.toRecordRotationThreshold
    ∈ ([] : list server.Flag)
  ∨ options.isZero server.NewAPIServerOptions server.toRecordRotationThreshold = true.
Proof.
  apply (AddFlags_destinations []
           (server.IntFlag "record-rotation-threshold"
              "pipeline record rotation threshold"
              server.RecordRotationThreshold_env server.toRecordRotationThreshold)).
  unfold server.AddFlags. simpl. in_trace.
Defined.
